(** * PGB Event Scheduler backend: department permissions, presence, CORS

  A shallow embedding of [src/routes/departmentPermissions.ts] (the four
  handlers of the department-permissions router) and of the server entry
  file (CORS origin callbacks, the [connectedUsers] presence map of the
  Socket.IO handlers, the manual cleanup route), with the properties the
  specification states about them. *)

From Stdlib Require QArith.QArith_base.
From Stdlib Require Import Ascii.
From stdpp Require Import base strings list gmap sorting.

Set Warnings "-register-all".

(** ** JavaScript values *)

Module JS.

(** Values that reach the handlers: parsed JSON request bodies, plus
    [undefined] for a property that is not there.  A JSON number is a
    decimal literal, kept as a rational. *)
Inductive jsval : Type :=
| JUndefined
| JNull
| JBool (b : bool)
| JNum (q : QArith_base.Q)
| JStr (s : string)
| JArr (elems : list jsval)
| JObj (props : list (string * jsval)).

(** [typeof v] *)
Definition typeof (v : jsval) : string :=
  match v with
  | JUndefined => "undefined"
  | JNull => "object"
  | JBool _ => "boolean"
  | JNum _ => "number"
  | JStr _ => "string"
  | JArr _ => "object"
  | JObj _ => "object"
  end.

(** ToBoolean: what [!v], [v && _] and [v || _] test. *)
Definition truthy (v : jsval) : bool :=
  match v with
  | JUndefined | JNull => false
  | JBool b => b
  | JNum q => negb (QArith_base.Qnum q =? 0)%Z
  | JStr s => negb (String.eqb s "")
  | JArr _ | JObj _ => true
  end.

(** [a || b] *)
Definition js_or (a b : jsval) : jsval := if truthy a then a else b.

Fixpoint assoc (k : string) (props : list (string * jsval)) : jsval :=
  match props with
  | [] => JUndefined
  | (k', v) :: rest => if String.eqb k k' then v else assoc k rest
  end.

(** [v.k] for a property name [k] that is neither an array index nor
    [length] nor inherited from a prototype (the handlers read only the
    five permission names): own properties of an object, [undefined] on
    an array or a primitive. *)
Definition get_prop (v : jsval) (k : string) : jsval :=
  match v with
  | JObj props => assoc k props
  | _ => JUndefined
  end.

End JS.

(** ** The process: document collection, driver failures, console *)

Module Runtime.
Import JS.

(** The [permissions] sub-document.  A field that is not there reads as
    [undefined]. *)
Record flags : Type := Flags {
  myRequirements : jsval;
  manageLocation : jsval;
  myCalendar : jsval;
  allEvents : jsval;
  taggedDepartments : jsval
}.

(** A document of the DepartmentPermissions collection, and the object
    the GET handler synthesizes ([updatedBy] absent). *)
Record doc : Type := Doc {
  department : string;
  permissions : option flags;
  updatedBy : option string
}.

(** A value caught by [catch (error)]: an [Error] with its [message], or
    anything else that was thrown. *)
Inductive thrown : Type :=
| ErrorObj (message : string)
| Raised (v : jsval).

(** One assignment of an update document.  [SetFlag] is a dotted path
    such as ['permissions.myCalendar']. *)
Inductive flag : Type :=
| MyRequirements | ManageLocation | MyCalendar | AllEvents | TaggedDepartments.

Inductive assignment : Type :=
| SetDepartment (d : string)
| SetPermissions (f : flags)
| SetFlag (fl : flag) (v : jsval)
| SetUpdatedBy (u : string).

(** The options of [findOneAndUpdate]: [new], [upsert], [runValidators]. *)
Record options : Type := Options {
  opt_new : bool;
  opt_upsert : bool;
  opt_runValidators : bool
}.

(** Calls made on the model, in the order they were issued. *)
Inductive store_call : Type :=
| CallFindOne (d : string)
| CallFind
| CallFindOneAndUpdate (d : string) (upd : list assignment) (o : options).

Inductive log_line : Type :=
| LogInfo (text : string) (arg : option jsval)
| LogError (text : string) (e : thrown).

(** [coll]: the collection; [faults]: for each coming call on the
    collection, whether it is rejected and with what (no entry: the call
    goes through); [calls]: the calls issued so far, as handed over;
    [console]: what went to [console.log] and [console.error]. *)
Record world : Type := World {
  coll : list doc;
  faults : list (option thrown);
  calls : list store_call;
  console : list log_line
}.

Inductive outcome (A : Type) : Type :=
| Ret (a : A)
| Throw (e : thrown).
Arguments Ret {A} a.
Arguments Throw {A} e.

(** An [async] computation: runs on the world, returns or throws. *)
Definition M (A : Type) : Type := world → outcome A * world.

Definition ret {A} (a : A) : M A := λ w, (Ret a, w).

Definition bind {A B} (m : M A) (k : A → M B) : M B :=
  λ w, match m w with
       | (Ret a, w') => k a w'
       | (Throw e, w') => (Throw e, w')
       end.

Definition throw {A} (e : thrown) : M A := λ w, (Throw e, w).

(** [try { body } catch (error) { handler(error) }] *)
Definition try_catch {A} (body : M A) (handler : thrown → M A) : M A :=
  λ w, match body w with
       | (Ret a, w') => (Ret a, w')
       | (Throw e, w') => handler e w'
       end.

Definition console_log (text : string) (arg : option jsval) : M unit :=
  λ w, (Ret (), World (coll w) (faults w) (calls w) (console w ++ [LogInfo text arg])).

Definition console_error (text : string) (e : thrown) : M unit :=
  λ w, (Ret (), World (coll w) (faults w) (calls w) (console w ++ [LogError text e])).

(** An awaited call on the collection: recorded, then rejected if the
    driver fails it (the connection, or the model refusing what it is
    handed, validators included), else run on the collection. *)
Definition driver {A} (c : store_call) (op : list doc → A * list doc) : M A :=
  λ w, match faults w with
       | Some e :: rest =>
           (Throw e, World (coll w) rest (calls w ++ [c]) (console w))
       | fs =>
           let '(a, c') := op (coll w) in
           (Ret a, World c' (tail fs) (calls w ++ [c]) (console w))
       end.

(** The next [n] calls on the collection are not rejected. *)
Definition calm (n : nat) (w : world) : Prop :=
  ∀ i e, i < n → faults w !! i ≠ Some (Some e).

(** Between [w] and [w'] a call on the collection was rejected with [e]:
    one of the calls issued in between met the fault [e]. *)
Definition failed_call (w w' : world) (e : thrown) : Prop :=
  ∃ i, i < length (calls w') - length (calls w) ∧ faults w !! i = Some (Some e).

Definition matches (d : string) (x : doc) : bool := String.eqb (department x) d.

Definition set_flag (fl : flag) (v : jsval) (f : flags) : flags :=
  match fl with
  | MyRequirements =>
      Flags v (manageLocation f) (myCalendar f) (allEvents f) (taggedDepartments f)
  | ManageLocation =>
      Flags (myRequirements f) v (myCalendar f) (allEvents f) (taggedDepartments f)
  | MyCalendar =>
      Flags (myRequirements f) (manageLocation f) v (allEvents f) (taggedDepartments f)
  | AllEvents =>
      Flags (myRequirements f) (manageLocation f) (myCalendar f) v (taggedDepartments f)
  | TaggedDepartments =>
      Flags (myRequirements f) (manageLocation f) (myCalendar f) (allEvents f) v
  end.

Definition no_flags : flags :=
  Flags JUndefined JUndefined JUndefined JUndefined JUndefined.

(** Modelled from the spec: the schema of [models/DepartmentPermissions]
    is not among the sources.  Section 3 of the spec types the five flags
    boolean and says no more, so which boolean the model makes of a value
    that is none is not stated: the function is closed with [Qed], and
    nothing below can rest on its values. *)
Definition schema_boolean : jsval → bool.
Proof. exact truthy. Qed.

(** Modelled from the spec: a flag as a write keeps it, "boolean" in
    section 3: a boolean as it is, a field that is not set left out, any
    other value as the boolean of the schema. *)
Definition kept (v : jsval) : jsval :=
  match v with
  | JBool _ | JUndefined => v
  | _ => JBool (schema_boolean v)
  end.

Definition kept_flags (f : flags) : flags :=
  Flags (kept (myRequirements f)) (kept (manageLocation f)) (kept (myCalendar f))
        (kept (allEvents f)) (kept (taggedDepartments f)).

Definition assign (a : assignment) (x : doc) : doc :=
  match a with
  | SetDepartment d => Doc d (permissions x) (updatedBy x)
  | SetPermissions f => Doc (department x) (Some (kept_flags f)) (updatedBy x)
  | SetFlag fl v =>
      Doc (department x)
          (Some (set_flag fl (kept v) (default no_flags (permissions x))))
          (updatedBy x)
  | SetUpdatedBy u => Doc (department x) (permissions x) (Some u)
  end.

(** The update document applied as [$set], in property order. *)
Definition apply_update (upd : list assignment) (x : doc) : doc :=
  foldl (λ acc a, assign a acc) x upd.

Fixpoint modify_first (d : string) (f : doc → doc) (c : list doc) : list doc :=
  match c with
  | [] => []
  | x :: rest => if matches d x then f x :: rest else x :: modify_first d f rest
  end.

(** Modelled from the spec: the Mongoose model
    [models/DepartmentPermissions] (schema and collection) is not among
    the sources.  The collection is the document store of the spec, keyed
    by department: [findOne({ department })] returns the first document
    of the department, [null] when there is none. *)
Definition findOne_in (d : string) (c : list doc) : option doc :=
  List.find (matches d) c.

(** Modelled from the spec: [findOneAndUpdate({ department }, upd, o)] on
    that store, "upserts by department key", for a call that goes
    through.  The paths of [upd] are set on the department's document,
    the flags as [kept] has them; with [upsert] and no such document,
    one made of the filter and the update is inserted.  The result is the
    document after the update with [new], the one before it ([null] if
    there was none) otherwise.  A call that the model refuses
    ([runValidators]) is a call that is rejected, see [driver].  The
    [updatedAt] stamp is left out, and so is what [populate] puts in the
    place of [updatedBy]: the reference is handed back as stored. *)
Definition findOneAndUpdate_in (d : string) (upd : list assignment) (o : options)
    (c : list doc) : option doc * list doc :=
  match findOne_in d c with
  | Some old =>
      (Some (if opt_new o then apply_update upd old else old),
       modify_first d (apply_update upd) c)
  | None =>
      if opt_upsert o then
        let fresh := apply_update upd (Doc d None None) in
        (if opt_new o then Some fresh else None, c ++ [fresh])
      else (None, c)
  end.

(** The order of [sort({ department: 1 })]. *)
Definition by_department (x y : doc) : Prop :=
  String.leb (department x) (department y) = true.

#[export] Instance by_department_dec x y : Decision (by_department x y).
Proof. unfold by_department. apply _. Defined.

Definition findOne (d : string) : M (option doc) :=
  driver (CallFindOne d) (λ c, (findOne_in d c, c)).

Definition findOneAndUpdate (d : string) (upd : list assignment) (o : options)
    : M (option doc) :=
  driver (CallFindOneAndUpdate d upd o) (findOneAndUpdate_in d upd o).

(** Modelled from the spec: [find().populate(..).sort({ department: 1 })]
    on that store: every document, "sorted by department name", the
    names compared byte by byte.  What [populate] puts in the place of
    [updatedBy], from a users collection that is not modelled, is left
    out: the reference is handed back as stored. *)
Definition find_sorted : M (list doc) :=
  driver CallFind (λ c, (merge_sort by_department c, c)).

(** What [res.json] carries in [data]: one document (or [null]) or a
    list of documents. *)
Inductive payload : Type :=
| DataDoc (d : option doc)
| DataList (l : list doc).

Record body : Type := Body {
  success : bool;
  message : option string;
  data : option payload;
  result : option jsval;
  error : option string
}.

Record response : Type := Response { status : nat; json : body }.

End Runtime.

Notation "'await' x ':=' m 'in' k" := (Runtime.bind m (λ x, k))
  (at level 10, x name, m at level 100, k at level 200, only parsing).
Notation "'exec' m 'in' k" := (Runtime.bind m (λ _, k))
  (at level 10, m at level 100, k at level 200, only parsing).

(** ** The department-permissions router *)

Module Permissions.
Import JS Runtime.

(** What a handler reads of [req]: [req.params.department], the parsed
    [req.body], and [req.user.id] as the [authenticateToken] middleware
    (not among the sources) left it. *)
Record request : Type := Request {
  params_department : string;
  req_body : jsval;
  user_id : string
}.

(** [const { k } = v]: a TypeError on [undefined] and [null]. *)
Definition destructure (v : jsval) (k : string) : M jsval :=
  match v with
  | JUndefined | JNull =>
      throw (ErrorObj ("Cannot destructure property '" +:+ k +:+ "'"))
  | _ => ret (get_prop v k)
  end.

(** [res.json(b)] and [res.status(n).json(b)] *)
Definition res_json (b : body) : M response := ret (Response 200 b).
Definition res_status_json (n : nat) (b : body) : M response := ret (Response n b).

Definition failure (text : string) : body := Body false (Some text) None None None.

Definition is_undefined (v : jsval) : bool := String.eqb (typeof v) "undefined".
Definition is_boolean (v : jsval) : bool := String.eqb (typeof v) "boolean".

Definition all_false : flags :=
  Flags (JBool false) (JBool false) (JBool false) (JBool false) (JBool false).

Definition all_true : flags :=
  Flags (JBool true) (JBool true) (JBool true) (JBool true) (JBool true).

Definition read_flag (fl : flag) (f : flags) : jsval :=
  match fl with
  | MyRequirements => myRequirements f
  | ManageLocation => manageLocation f
  | MyCalendar => myCalendar f
  | AllEvents => allEvents f
  | TaggedDepartments => taggedDepartments f
  end.

(** One of the three backward-compatibility tests of the GET handler, on
    the fetched document, [updates] and [needsUpdate]:
    [if (permissions.permissions && typeof permissions.permissions.fl === 'undefined')]
    then set the field to [false] on the document in hand, add the path to
    [updates], raise [needsUpdate]. *)
Definition backfill (fl : flag) (st : doc * list assignment * bool)
    : doc * list assignment * bool :=
  let '(x, updates, needsUpdate) := st in
  match permissions x with
  | Some f =>
      if is_undefined (read_flag fl f) then
        (Doc (department x) (Some (set_flag fl (JBool false) f)) (updatedBy x),
         updates ++ [SetFlag fl (JBool false)],
         true)
      else st
  | None => st
  end.

(** [router.get('/:department', ...)] *)
Definition get_department (req : request) : M response :=
  try_catch
    (let department := params_department req in
     await found := findOne department in
     match found with
     | None =>
         res_json (Body true None
           (Some (DataDoc (Some (Doc department (Some all_false) None)))) None None)
     | Some x =>
         let st := backfill TaggedDepartments
                     (backfill AllEvents (backfill MyCalendar (x, [], false))) in
         let '(x', updates, needsUpdate) := st in
         exec (if (needsUpdate : bool)
               then findOneAndUpdate department updates (Options false false false)
               else ret None) in
         res_json (Body true None (Some (DataDoc (Some x'))) None None)
     end)
    (λ e,
     exec console_error "Error fetching department permissions:" e in
     res_status_json 500 (failure "Failed to fetch department permissions")).

(** [router.get('/', ...)] *)
Definition get_all (req : request) : M response :=
  try_catch
    (await all := find_sorted in
     res_json (Body true None (Some (DataList all)) None None))
    (λ e,
     exec console_error "Error fetching all department permissions:" e in
     res_status_json 500 (failure "Failed to fetch department permissions")).

(** [router.put('/:department', ...)] *)
Definition put_department (req : request) : M response :=
  try_catch
    (let department := params_department req in
     await permissions := destructure (req_body req) "permissions" in
     let userId := user_id req in
     if negb (truthy permissions) || negb (String.eqb (typeof permissions) "object")
     then res_status_json 400 (failure "Invalid permissions data")
     else
       let myRequirements := get_prop permissions "myRequirements" in
       let manageLocation := get_prop permissions "manageLocation" in
       let myCalendar := get_prop permissions "myCalendar" in
       let allEvents := get_prop permissions "allEvents" in
       let taggedDepartments := get_prop permissions "taggedDepartments" in
       if negb (is_boolean myRequirements) || negb (is_boolean manageLocation)
          || negb (is_boolean myCalendar)
       then res_status_json 400 (failure "Permission values must be boolean")
       else
         await updatedPermissions :=
           findOneAndUpdate department
             [SetDepartment department;
              SetPermissions
                (Flags myRequirements manageLocation myCalendar
                   (js_or allEvents (JBool false))
                   (js_or taggedDepartments (JBool false)));
              SetUpdatedBy userId]
             (Options true true true) in
         exec console_log
                ("✅ Department permissions updated for " +:+ department +:+ ":")
                (Some permissions) in
         res_json (Body true (Some "Department permissions updated successfully")
                     (Some (DataDoc updatedPermissions)) None None))
    (λ e,
     exec console_error "Error updating department permissions:" e in
     res_status_json 500 (failure "Failed to update department permissions")).

(** [router.delete('/:department', ...)] *)
Definition delete_department (req : request) : M response :=
  try_catch
    (let department := params_department req in
     let userId := user_id req in
     await defaultPermissions :=
       findOneAndUpdate department
         [SetDepartment department; SetPermissions all_true; SetUpdatedBy userId]
         (Options true true true) in
     exec console_log
            ("🔄 Department permissions reset to defaults for " +:+ department) None in
     res_json (Body true (Some "Department permissions reset to defaults")
                 (Some (DataDoc defaultPermissions)) None None))
    (λ e,
     exec console_error "Error resetting department permissions:" e in
     res_status_json 500 (failure "Failed to reset department permissions")).

(** The flags a read hands back for a stored sub-document. *)
Definition or_false (v : jsval) : jsval := if is_undefined v then JBool false else v.

Definition read_back (f : flags) : flags :=
  Flags (myRequirements f) (manageLocation f)
        (or_false (myCalendar f)) (or_false (allEvents f))
        (or_false (taggedDepartments f)).

(** The paths a read writes for a stored sub-document. *)
Definition missing_paths (f : flags) : list assignment :=
  (if is_undefined (myCalendar f) then [SetFlag MyCalendar (JBool false)] else [])
  ++ (if is_undefined (allEvents f) then [SetFlag AllEvents (JBool false)] else [])
  ++ (if is_undefined (taggedDepartments f)
      then [SetFlag TaggedDepartments (JBool false)] else []).

(** How many updates a read issues for a stored sub-document. *)
Definition writes (f : flags) : nat :=
  match missing_paths f with [] => 0 | _ => 1 end.

(** The fields the GET handler tests, added to the schema after the two
    others. *)
Definition backfilled : list flag := [MyCalendar; AllEvents; TaggedDepartments].

Definition original : list flag := [MyRequirements; ManageLocation].

Definition ok_doc (x : doc) : response :=
  Response 200 (Body true None (Some (DataDoc (Some x))) None None).

(** The router, by route. *)
Inductive route : Type :=
| GetDepartment
| GetAll
| PutDepartment
| DeleteDepartment.

Definition router (r : route) : request → M response :=
  match r with
  | GetDepartment => get_department
  | GetAll => get_all
  | PutDepartment => put_department
  | DeleteDepartment => delete_department
  end.

(** What each route answers with 500, and what it logs the error under. *)
Definition failure_text (r : route) : string :=
  match r with
  | GetDepartment | GetAll => "Failed to fetch department permissions"
  | PutDepartment => "Failed to update department permissions"
  | DeleteDepartment => "Failed to reset department permissions"
  end.

Definition error_tag (r : route) : string :=
  match r with
  | GetDepartment => "Error fetching department permissions:"
  | GetAll => "Error fetching all department permissions:"
  | PutDepartment => "Error updating department permissions:"
  | DeleteDepartment => "Error resetting department permissions:"
  end.

(** Property names of the sub-document. *)
Definition field_name (fl : flag) : string :=
  match fl with
  | MyRequirements => "myRequirements"
  | ManageLocation => "manageLocation"
  | MyCalendar => "myCalendar"
  | AllEvents => "allEvents"
  | TaggedDepartments => "taggedDepartments"
  end.

Definition mandatory : list flag := [MyRequirements; ManageLocation; MyCalendar].

Definition optional : list flag := [AllEvents; TaggedDepartments].

(** The payload carries booleans in the three mandatory fields. *)
Definition valid_payload (p : jsval) : Prop :=
  ∀ fl, fl ∈ mandatory → ∃ b, get_prop p (field_name fl) = JBool b.

(** The request has a body to take [permissions] from. *)
Definition has_body (req : request) : Prop :=
  req_body req ≠ JUndefined ∧ req_body req ≠ JNull.

(** An optional field as sent and as read back: [false] when it was not
    sent, the boolean when one was sent. *)
Definition defaulted (sent got : jsval) : Prop :=
  (sent = JUndefined → got = JBool false) ∧ (∀ b, sent = JBool b → got = JBool b).

(** The routes that write: PUT and DELETE. *)
Definition is_write (r : route) : bool :=
  match r with
  | PutDepartment | DeleteDepartment => true
  | GetDepartment | GetAll => false
  end.

(** What a request for department [d] may do to the collection: nothing,
    change the first document of [d] in place (keeping its department),
    or, when [upsert] is allowed and [d] has no document, add one for [d]
    at the end. *)
Inductive touched (upsert : bool) (d : string) (c : list doc) : list doc → Prop :=
| touched_not : touched upsert d c c
| touched_changed (f : doc → doc) :
    (∀ x, department x = d → department (f x) = d) →
    touched upsert d c (modify_first d f c)
| touched_added (x : doc) :
    upsert = true → findOne_in d c = None → department x = d →
    touched upsert d c (c ++ [x]).

End Permissions.

(** ** The server entry file: CORS, presence, manual cleanup *)

Module Server.
Import JS Runtime.

(** *** Allowed origins *)

(** [s.split(',')] *)
Fixpoint split_comma (s : string) : list string :=
  match s with
  | EmptyString => [""]
  | String c rest =>
      if Ascii.eqb c ","%char then "" :: split_comma rest
      else match split_comma rest with
           | piece :: pieces => String c piece :: pieces
           | [] => [String c ""]
           end
  end.

(** [process.env.CORS_ORIGINS ? process.env.CORS_ORIGINS.split(',') : [...]] *)
Definition allowedOrigins (CORS_ORIGINS : option string) : list string :=
  match CORS_ORIGINS with
  | Some s =>
      if truthy (JStr s) then split_comma s
      else ["http://localhost:5173"; "http://localhost:8080"; "http://localhost:3000"]
  | None => ["http://localhost:5173"; "http://localhost:8080"; "http://localhost:3000"]
  end.

(** [l.indexOf(x)] on an array of strings *)
Fixpoint indexOf (x : string) (l : list string) : Z :=
  match l with
  | [] => -1
  | y :: rest =>
      if String.eqb y x then 0
      else let i := indexOf x rest in if (i =? -1)%Z then -1 else (1 + i)%Z
  end.

(** What the origin function hands to its callback: [callback(null, true)]
    or [callback(new Error(..))]. *)
Inductive verdict : Type :=
| Accept
| Reject (e : thrown).

(** The [origin] argument is [undefined] when the request has no Origin
    header.  The result is the callback's argument and what was logged. *)
Definition origin_function (blocked : string) (allowed : list string)
    (origin : option string) : verdict * list log_line :=
  match origin with
  | None => (Accept, [])
  | Some o =>
      if negb (truthy (JStr o)) then (Accept, [])
      else if negb (indexOf o allowed =? -1)%Z then (Accept, [])
      else (Reject (ErrorObj "Not allowed by CORS"), [LogInfo blocked (Some (JStr o))])
  end.

(** [cors.origin] of [new Server(httpServer, ...)] *)
Definition socket_cors_origin : list string → option string → verdict * list log_line :=
  origin_function "❌ Socket.IO CORS blocked origin:".

(** [origin] of [app.use(cors(...))] *)
Definition http_cors_origin : list string → option string → verdict * list log_line :=
  origin_function "❌ CORS blocked origin:".

(** *** Presence *)

(** A JavaScript [Map] with string keys: entries in insertion order, one
    per key. *)
Abbreviation Map V := (list (string * V)) (only parsing).

Fixpoint Map_get {V} (k : string) (m : Map V) : option V :=
  match m with
  | [] => None
  | (k', v) :: rest => if String.eqb k' k then Some v else Map_get k rest
  end.

Definition Map_has {V} (k : string) (m : Map V) : bool :=
  match Map_get k m with Some _ => true | None => false end.

(** [m.set(k, v)]: the value is replaced where the key is, a new key goes
    last. *)
Fixpoint Map_set {V} (k : string) (v : V) (m : Map V) : Map V :=
  match m with
  | [] => [(k, v)]
  | (k', v') :: rest =>
      if String.eqb k' k then (k, v) :: rest else (k', v') :: Map_set k v rest
  end.

Fixpoint Map_delete {V} (k : string) (m : Map V) : Map V :=
  match m with
  | [] => []
  | (k', v') :: rest =>
      if String.eqb k' k then Map_delete k rest else (k', v') :: Map_delete k rest
  end.

(** [connectedUsers]: user id to socket id; [rooms]: which socket is in
    which room; [output]: the console.  The user id a client sends is
    taken to be a string. *)
Record presence : Type := Presence {
  connectedUsers : Map string;
  rooms : gset (string * string);
  output : list log_line
}.

Definition initial : presence := Presence [] ∅ [].

Definition say (text : string) (p : presence) : presence :=
  Presence (connectedUsers p) (rooms p) (output p ++ [LogInfo text None]).

Definition socket_join (socket_id room : string) (p : presence) : presence :=
  Presence (connectedUsers p) ({[ (socket_id, room) ]} ∪ rooms p) (output p).

Definition socket_leave (socket_id room : string) (p : presence) : presence :=
  Presence (connectedUsers p) (rooms p ∖ {[ (socket_id, room) ]}) (output p).

Definition set_user (userId socket_id : string) (p : presence) : presence :=
  Presence (Map_set userId socket_id (connectedUsers p)) (rooms p) (output p).

(** [socket.on('join-user-room', (userId) => ...)] on the socket
    [socket_id] *)
Definition join_user_room (socket_id userId : string) (p : presence) : presence :=
  let p1 :=
    if Map_has userId (connectedUsers p) then
      let oldSocketId := Map_get userId (connectedUsers p) in
      if negb (bool_decide (oldSocketId = Some socket_id)) then
        set_user userId socket_id
          (say ("🔄 User " +:+ userId +:+ " reconnecting - updating socket ID from "
                +:+ default "undefined" oldSocketId +:+ " to " +:+ socket_id) p)
      else say ("✅ User " +:+ userId +:+ " already in room with same socket") p
    else
      set_user userId socket_id (say ("👤 New user " +:+ userId +:+ " joining room") p)
  in
  say ("✅ User " +:+ userId +:+ " is now in room user-" +:+ userId)
    (socket_join socket_id ("user-" +:+ userId) p1).

(** [socket.on('join-conversation', ...)] *)
Definition join_conversation (socket_id conversationId : string) (p : presence)
    : presence :=
  say ("💬 User joined conversation: " +:+ conversationId)
    (socket_join socket_id ("conversation-" +:+ conversationId) p).

(** [socket.on('leave-conversation', ...)] *)
Definition leave_conversation (socket_id conversationId : string) (p : presence)
    : presence :=
  say ("👋 User left conversation: " +:+ conversationId)
    (socket_leave socket_id ("conversation-" +:+ conversationId) p).

(** The loop of the disconnect handler over [connectedUsers.entries()]:
    the user id of the first entry whose socket id is [socket_id], where
    the loop deletes and breaks. *)
Fixpoint first_user_of (socket_id : string) (entries : list (string * string))
    : option string :=
  match entries with
  | [] => None
  | (userId, socketId) :: rest =>
      if String.eqb socketId socket_id then Some userId
      else first_user_of socket_id rest
  end.

(** [socket.on('disconnect', ...)] *)
Definition disconnect (socket_id : string) (p : presence) : presence :=
  match first_user_of socket_id (connectedUsers p) with
  | Some userId =>
      say "🔌 User disconnected and cleaned up"
        (Presence (Map_delete userId (connectedUsers p)) (rooms p) (output p))
  | None => p
  end.

(** [io.on('connection', ...)] *)
Definition connection (socket_id : string) (p : presence) : presence :=
  Presence (connectedUsers p) (rooms p)
    (output p ++ [LogInfo "🔌 User connected:" (Some (JStr socket_id))]).

(** [socket.on('test-connection', ...)]; the reply sent back to the
    client, with the time of day, is no part of this state. *)
Definition test_connection (socket_id : string) (data : jsval) (p : presence)
    : presence :=
  Presence (connectedUsers p) (rooms p)
    (output p ++ [LogInfo "🧪 Test connection received:" (Some data)]).

Inductive event : Type :=
| Connection
| TestConnection (data : jsval)
| JoinUserRoom (userId : string)
| JoinConversation (conversationId : string)
| LeaveConversation (conversationId : string)
| Disconnect.

(** One event of the socket [socket_id]. *)
Definition handle (p : presence) (ev : string * event) : presence :=
  let '(socket_id, e) := ev in
  match e with
  | Connection => connection socket_id p
  | TestConnection data => test_connection socket_id data p
  | JoinUserRoom userId => join_user_room socket_id userId p
  | JoinConversation c => join_conversation socket_id c p
  | LeaveConversation c => leave_conversation socket_id c p
  | Disconnect => disconnect socket_id p
  end.

Definition run (evs : list (string * event)) (p : presence) : presence :=
  foldl handle p evs.

(** *** Manual cleanup *)

Section Cleanup.

(** [runCleanupNow] of [services/scheduler.js], which is not among the
    sources: any computation that returns a result or throws. *)
Variable runCleanupNow : M jsval.

(** [error instanceof Error ? error.message : 'Unknown error'] *)
Definition error_text (e : thrown) : string :=
  match e with
  | ErrorObj message => message
  | Raised _ => "Unknown error"
  end.

(** [app.post('/api/cleanup-now', ...)] *)
Definition cleanup_now : M response :=
  try_catch
    (exec console_log "🧹 Manual cleanup triggered via API..." None in
     await result := runCleanupNow in
     ret (Response 200
            (Body true (Some "Cleanup completed successfully") None (Some result) None)))
    (λ e,
     exec console_error "❌ Manual cleanup failed:" e in
     ret (Response 500
            (Body false (Some "Cleanup failed") None None (Some (error_text e))))).

End Cleanup.

(** *** Startup *)

(** What the start of the process does, in order: a line on the console,
    [mongoose.connect(uri)], [startScheduler()],
    [httpServer.listen(PORT, ...)]. *)
Inductive action : Type :=
| Say (l : log_line)
| MongooseConnect (uri : string)
| StartScheduler
| Listen (port : jsval).

(** The actions that are not lines on the console. *)
Definition is_step (a : action) : bool :=
  match a with
  | Say _ => false
  | MongooseConnect _ | StartScheduler | Listen _ => true
  end.

(** How a piece of the startup ends: it returns, it throws, or
    [process.exit(code)] ends the process. *)
Inductive ending : Type :=
| Returned
| Threw (e : thrown)
| Exited (code : Z).

(** How [httpServer.listen(PORT, callback)] answers: the server listens
    and the callback runs; or [listen] throws at the call (a port that is
    no port); or [listen] returns and its failure (a port in use) comes
    afterwards as an ['error'] event of the server. *)
Inductive listening : Type :=
| Listens
| ListenThrows (e : thrown)
| ListenErrorEvent (e : thrown).

(** What the startup reads and what its collaborators answer:
    [process.env.MONGODB_URI], [process.env.PORT], what
    [mongoose.connect] rejects with (if it does),
    [mongoose.connection.db?.databaseName], [mongoose.connection.host],
    what [startScheduler] throws (if it does), how [listen] answers. *)
Record environment : Type := Environment {
  env_MONGODB_URI : option string;
  env_PORT : option string;
  connect_rejects : option thrown;
  databaseName : option string;
  connection_host : option string;
  scheduler_throws : option thrown;
  listen_answers : listening
}.

(** [process.env.X] as a value: a string, or [undefined]. *)
Definition env_value (x : option string) : jsval :=
  match x with Some s => JStr s | None => JUndefined end.

(** [process.env.PORT || 5000] *)
Definition PORT (env : environment) : jsval :=
  js_or (env_value (env_PORT env)) (JNum (QArith_base.Qmake 5000 1)).

Definition then_do (a b : list action * ending) : list action * ending :=
  match a.2 with
  | Returned => (a.1 ++ b.1, b.2)
  | _ => a
  end.

(** [try { a } catch (error) { handler(error) }]; an exit is not caught. *)
Definition catching (a : list action * ending)
    (handler : thrown → list action * ending) : list action * ending :=
  match a.2 with
  | Threw e => (a.1 ++ (handler e).1, (handler e).2)
  | _ => a
  end.

Definition log (text : string) : list action * ending :=
  ([Say (LogInfo text None)], Returned).

(** A call of a collaborator that throws (or rejects) or not. *)
Definition call (a : action) (throws : option thrown) : list action * ending :=
  ([a], match throws with Some e => Threw e | None => Returned end).

(** [connectDB] *)
Definition connectDB (env : environment) : list action * ending :=
  catching
    (if negb (truthy (env_value (env_MONGODB_URI env))) then
       ([], Threw (ErrorObj "MONGODB_URI is not defined in environment variables"))
     else
       then_do (log "🔄 Connecting to MongoDB Atlas...")
      (then_do (call (MongooseConnect (default "" (env_MONGODB_URI env)))
                  (connect_rejects env))
      (then_do (log "✅ MongoDB Atlas connected successfully!")
      (then_do (log ("📊 Database: " +:+ default "undefined" (databaseName env)))
      (then_do (log ("🌐 Host: " +:+ default "undefined" (connection_host env)))
               (call StartScheduler (scheduler_throws env)))))))
    (λ e, ([Say (LogError "❌ MongoDB connection failed:" e)], Exited 1)).

(** What [listen] does at the call: it throws, or it returns. *)
Definition listen_throws (env : environment) : option thrown :=
  match listen_answers env with
  | ListenThrows e => Some e
  | Listens | ListenErrorEvent _ => None
  end.

(** [startServer] *)
Definition startServer (env : environment) : list action * ending :=
  catching
    (then_do (connectDB env) (call (Listen (PORT env)) (listen_throws env)))
    (λ e, ([Say (LogError "❌ Failed to start server:" e)], Exited 1)).

(** [`${PORT}`]: the string of the environment, or 5000 written out. *)
Definition PORT_text (env : environment) : string :=
  match PORT env with
  | JStr s => s
  | _ => "5000"
  end.

(** [s.repeat(n)] *)
Fixpoint repeat_string (s : string) (n : nat) : string :=
  match n with
  | O => ""
  | S n' => s +:+ repeat_string s n'
  end.

(** The callback of [listen], run once the server listens. *)
Definition listening_callback (env : environment) : list action :=
  let url := "http://localhost:" +:+ PORT_text env in
  map (λ text, Say (LogInfo text None))
    ["🚀 PGB Event Scheduler Backend Server Started!";
     "📡 Server running on: " +:+ url;
     "🔌 Socket.IO enabled with connection management and spam prevention";
     "🏥 Health check: " +:+ url +:+ "/api/health";
     "📅 Events API: " +:+ url +:+ "/api/events";
     "👥 Users API: " +:+ url +:+ "/api/users";
     "💬 Messages API: " +:+ url +:+ "/api/messages";
     "🏢 Departments API: " +:+ url +:+ "/api/departments";
     "📦 Resource Availability API: " +:+ url +:+ "/api/resource-availability";
     "🗺️ Location Availability API: " +:+ url +:+ "/api/location-availability";
     repeat_string "─" 50].

(** What becomes of the process: it serves, it exits with a code, or an
    error is left uncaught. *)
Inductive fate : Type :=
| Serving
| ProcessExit (code : Z)
| Uncaught (e : thrown).

(** [startServer();] at the end of the file, and what follows the call of
    [listen]: the callback when the server listens, the ['error'] event
    otherwise, for which no handler is registered anywhere in the
    file. *)
Definition main (env : environment) : list action * fate :=
  let started := startServer env in
  match started.2 with
  | Exited code => (started.1, ProcessExit code)
  | Threw e => (started.1, Uncaught e)
  | Returned =>
      match listen_answers env with
      | ListenErrorEvent e => (started.1, Uncaught e)
      | _ => (started.1 ++ listening_callback env, Serving)
      end
  end.

(** The calls the startup has to make before it serves, as far as the
    environment lets it come. *)
Definition steps_reached (env : environment) : list action :=
  match env_MONGODB_URI env with
  | None => []
  | Some uri =>
      if String.eqb uri "" then []
      else MongooseConnect uri ::
           match connect_rejects env with
           | Some _ => []
           | None =>
               StartScheduler ::
               match scheduler_throws env with
               | Some _ => []
               | None => [Listen (PORT env)]
               end
           end
  end.

(** The connection can be set up: the URI is there and not empty,
    [mongoose.connect] resolves, [startScheduler] returns. *)
Definition ready (env : environment) : Prop :=
  (∃ uri, env_MONGODB_URI env = Some uri ∧ uri ≠ "")
  ∧ connect_rejects env = None
  ∧ scheduler_throws env = None.

End Server.

(** ** Properties of the runtime model *)

Module RuntimeFacts.
Import JS Runtime.

#[global] Arguments driver : simpl never.
#[global] Arguments findOneAndUpdate_in : simpl never.
#[global] Arguments findOne_in : simpl never.

Lemma calm_nil n w : faults w = [] → calm n w.
Proof. intros E i e _. rewrite E. by destruct i. Qed.

Lemma calm_le n m w : n ≤ m → calm m w → calm n w.
Proof. intros Hle H i e Hi. apply H. lia. Qed.

Lemma driver_through {A} (c : store_call) (op : list doc → A * list doc) n w :
  calm (S n) w →
  driver c op w
  = (Ret (op (coll w)).1,
     World (op (coll w)).2 (tail (faults w)) (calls w ++ [c]) (console w))
  ∧ calm n (World (op (coll w)).2 (tail (faults w)) (calls w ++ [c]) (console w)).
Proof.
  intros H. unfold driver.
  destruct (faults w) as [|[e|] fs] eqn:E.
  - destruct (op (coll w)); split; [done|]. by apply calm_nil.
  - exfalso. apply (H 0 e); [lia|]. by rewrite E.
  - destruct (op (coll w)); split; [done|].
    intros i e Hi; simpl. specialize (H (S i) e). rewrite E in H. apply H. lia.
Qed.

Lemma driver_rejected {A} (c : store_call) (op : list doc → A * list doc) w e fs :
  faults w = Some e :: fs →
  driver c op w = (Throw e, World (coll w) fs (calls w ++ [c]) (console w)).
Proof. intros E. unfold driver. by rewrite E. Qed.

Lemma matches_eq d x : matches d x = true ↔ department x = d.
Proof. unfold matches. apply String.eqb_eq. Qed.

Lemma findOne_in_Some d c x : findOne_in d c = Some x → department x = d ∧ x ∈ c.
Proof.
  unfold findOne_in. intros H. apply find_some in H as [Hin Hm].
  split; [by apply matches_eq | by apply list_elem_of_In].
Qed.

Lemma findOne_in_app_fresh d c x :
  findOne_in d c = None → department x = d → findOne_in d (c ++ [x]) = Some x.
Proof.
  unfold findOne_in. induction c as [|y c IH]; simpl; intros Hnone Hd.
  - apply matches_eq in Hd. by rewrite Hd.
  - destruct (matches d y); [done | by apply IH].
Qed.

Lemma findOne_in_modify_first d f c old :
  findOne_in d c = Some old → department (f old) = d →
  findOne_in d (modify_first d f c) = Some (f old).
Proof.
  unfold findOne_in. induction c as [|y c IH]; simpl; intros Hfind Hd; [done|].
  destruct (matches d y) eqn:Hy.
  - injection Hfind as ->. simpl. apply matches_eq in Hd. by rewrite Hd.
  - simpl. rewrite Hy. by apply IH.
Qed.

(** An upsert with [new] leaves its result as the department's document,
    when the update keeps the department. *)
Lemma upsert_stored d upd c :
  (∀ x, department x = d → department (apply_update upd x) = d) →
  ∃ x, findOneAndUpdate_in d upd (Options true true true) c
       = (Some x, (findOneAndUpdate_in d upd (Options true true true) c).2)
     ∧ findOne_in d (findOneAndUpdate_in d upd (Options true true true) c).2 = Some x
     ∧ x = apply_update upd (default (Doc d None None) (findOne_in d c)).
Proof.
  intros Hkeep. unfold findOneAndUpdate_in.
  destruct (findOne_in d c) as [old|] eqn:Hfind; simpl.
  - eexists; split; [done|]. split; [|done].
    apply findOne_in_modify_first; [done|].
    apply Hkeep. by apply findOne_in_Some in Hfind as [? _].
  - eexists; split; [done|]. split; [|done].
    apply findOne_in_app_fresh; [done|]. by apply Hkeep.
Qed.

End RuntimeFacts.

(** ** Properties of the department-permissions router *)

Module PermissionsFacts.
Import JS Runtime Permissions RuntimeFacts.

Lemma is_boolean_spec v : is_boolean v = true ↔ ∃ b, v = JBool b.
Proof.
  split.
  - destruct v; try discriminate. eauto.
  - by intros [b ->].
Qed.

Lemma is_undefined_spec v : is_undefined v = true ↔ v = JUndefined.
Proof. split; [by destruct v | by intros ->]. Qed.

Lemma or_false_defined v : is_undefined (js_or v (JBool false)) = false.
Proof. unfold js_or. destruct (truthy v) eqn:E; [by destruct v | done]. Qed.

Lemma destructure_ok v k w :
  v ≠ JUndefined → v ≠ JNull → destructure v k w = (Ret (get_prop v k), w).
Proof. by destruct v. Qed.

Lemma get_prop_bool_object p k b : get_prop p k = JBool b → ∃ props, p = JObj props.
Proof. destruct p; try discriminate. eauto. Qed.

Lemma backfill_all d f u :
  backfill TaggedDepartments
    (backfill AllEvents (backfill MyCalendar (Doc d (Some f) u, [], false)))
  = (Doc d (Some (read_back f)) u, missing_paths f,
     match missing_paths f with [] => false | _ => true end).
Proof.
  destruct f as [f1 f2 f3 f4 f5].
  unfold backfill, read_back, missing_paths, or_false; simpl.
  destruct (is_undefined f3) eqn:E3; simpl;
    destruct (is_undefined f4) eqn:E4; simpl;
    destruct (is_undefined f5) eqn:E5; simpl;
    rewrite ?E3, ?E4, ?E5; reflexivity.
Qed.

Lemma apply_missing_paths d f u :
  apply_update (missing_paths f) (Doc d (Some f) u) = Doc d (Some (read_back f)) u.
Proof.
  destruct f as [f1 f2 f3 f4 f5].
  unfold read_back, missing_paths, or_false; simpl.
  by destruct (is_undefined f3), (is_undefined f4), (is_undefined f5).
Qed.

Lemma read_back_id f : missing_paths f = [] → read_back f = f.
Proof.
  destruct f as [f1 f2 f3 f4 f5].
  unfold read_back, missing_paths, or_false; simpl.
  by destruct (is_undefined f3), (is_undefined f4), (is_undefined f5).
Qed.

(** A read of a department that has a document with a sub-document. *)
Lemma get_department_present req w x f n :
  findOne_in (params_department req) (coll w) = Some x →
  permissions x = Some f →
  calm (S (writes f + n)) w →
  let x' := Doc (department x) (Some (read_back f)) (updatedBy x) in
  ∃ w',
    get_department req w = (Ret (ok_doc x'), w')
    ∧ findOne_in (params_department req) (coll w') = Some x'
    ∧ calm n w'
    ∧ console w' = console w
    ∧ coll w' = match missing_paths f with
                | [] => coll w
                | upd => modify_first (params_department req) (apply_update upd) (coll w)
                end
    ∧ calls w' =
        calls w ++ CallFindOne (params_department req) ::
          match missing_paths f with
          | [] => []
          | upd => [CallFindOneAndUpdate (params_department req) upd (Options false false false)]
          end.
Proof.
  intros Hfind Hperm Hcalm x'.
  destruct (driver_through (CallFindOne (params_department req))
              (λ c, (findOne_in (params_department req) c, c)) _ w Hcalm)
    as [Hrun Hcalm1].
  unfold get_department, try_catch, bind, findOne. rewrite Hrun.
  cbn [fst snd]. rewrite Hfind.
  pose proof (findOne_in_Some _ _ _ Hfind) as [Hdep _].
  destruct x as [dx px ux]. simpl in Hperm, Hdep, x'. subst px x'.
  rewrite backfill_all. unfold writes in Hcalm1.
  destruct (missing_paths f) as [|a upd] eqn:Hmiss.
  - unfold ret, res_json, ok_doc. rewrite (read_back_id f Hmiss).
    eexists; split; [reflexivity|]. simpl.
    repeat split; done.
  - unfold findOneAndUpdate.
    match goal with
    | |- context [driver ?c ?op ?w1] =>
        destruct (driver_through c op n w1 Hcalm1) as [Hrun2 Hcalm2];
        rewrite Hrun2; clear Hrun2
    end.
    unfold ret, res_json, ok_doc.
    eexists; split; [reflexivity|].
    revert Hcalm2. cbn [coll fst snd calls console].
    unfold findOneAndUpdate_in. rewrite Hfind. cbn [fst snd opt_new].
    intros Hcalm2. split; [|repeat split; try done].
    + rewrite <- apply_missing_paths, Hmiss.
      apply findOne_in_modify_first; [done|].
      rewrite <- Hmiss, apply_missing_paths. done.
    + by rewrite <- app_assoc.
Qed.

Lemma missing_paths_read_back f : missing_paths (read_back f) = [].
Proof.
  destruct f as [f1 f2 f3 f4 f5].
  unfold read_back, missing_paths, or_false; simpl.
  destruct (is_undefined f3) eqn:E3, (is_undefined f4) eqn:E4,
    (is_undefined f5) eqn:E5; simpl; by rewrite ?E3, ?E4, ?E5.
Qed.

(** A valid write: the document handed back is the one stored. *)
Lemma put_department_valid req w n :
  has_body req →
  let p := get_prop (req_body req) "permissions" in
  let d := params_department req in
  valid_payload p →
  calm (S n) w →
  let f := Flags (get_prop p "myRequirements") (get_prop p "manageLocation")
                 (get_prop p "myCalendar")
                 (js_or (get_prop p "allEvents") (JBool false))
                 (js_or (get_prop p "taggedDepartments") (JBool false)) in
  let x := Doc d (Some (kept_flags f)) (Some (user_id req)) in
  let upd := [SetDepartment d; SetPermissions f; SetUpdatedBy (user_id req)] in
  ∃ w',
    put_department req w
    = (Ret (Response 200
              (Body true (Some "Department permissions updated successfully")
                 (Some (DataDoc (Some x))) None None)), w')
    ∧ findOne_in d (coll w') = Some x
    ∧ calm n w'
    ∧ calls w' = calls w ++ [CallFindOneAndUpdate d upd (Options true true true)].
Proof.
  intros [Hb1 Hb2] p d Hvalid Hcalm f x upd.
  destruct (Hvalid MyRequirements) as [b1 H1]; [set_solver|].
  destruct (Hvalid ManageLocation) as [b2 H2]; [set_solver|].
  destruct (Hvalid MyCalendar) as [b3 H3]; [set_solver|].
  simpl in H1, H2, H3.
  destruct (get_prop_bool_object _ _ _ H1) as [props Hp].
  unfold put_department, try_catch, bind.
  rewrite (destructure_ok _ _ _ Hb1 Hb2). fold p. fold d.
  clearbody p. subst p. set (p := JObj props) in *.
  replace (truthy p) with true by reflexivity.
  replace (typeof p) with "object" by reflexivity.
  rewrite H1, H2, H3.
  replace (String.eqb "object" "object") with true by reflexivity.
  change (is_boolean (JBool b1)) with true.
  change (is_boolean (JBool b2)) with true.
  change (is_boolean (JBool b3)) with true.
  cbn [negb orb].
  unfold findOneAndUpdate.
  match goal with
  | |- context [driver ?c ?op ?w1] =>
      destruct (driver_through c op n w1 Hcalm) as [Hrun Hcalm'];
      rewrite Hrun; clear Hrun
  end.
  destruct (upsert_stored d
    [SetDepartment d;
     SetPermissions
       (Flags (JBool b1) (JBool b2) (JBool b3)
          (js_or (get_prop p "allEvents") (JBool false))
          (js_or (get_prop p "taggedDepartments") (JBool false)));
     SetUpdatedBy (user_id req)] (coll w)) as (y & Hy & Hstored & Hyeq); [done|].
  revert Hcalm'. rewrite Hy. cbn [fst snd]. intros Hcalm'.
  unfold console_log, res_json, ret. cbn [coll faults calls console].
  subst x f upd. rewrite H1, H2, H3.
  assert (y = Doc d
    (Some (kept_flags
             (Flags (JBool b1) (JBool b2) (JBool b3)
                (js_or (get_prop p "allEvents") (JBool false))
                (js_or (get_prop p "taggedDepartments") (JBool false)))))
    (Some (user_id req))) as -> by (rewrite Hyeq; reflexivity).
  eexists; split; [reflexivity|]. cbn [coll calls].
  repeat split; done.
Qed.

(** A reset: the document handed back is the one stored. *)
Lemma delete_department_through req w n :
  calm (S n) w →
  let d := params_department req in
  let x := Doc d (Some all_true) (Some (user_id req)) in
  ∃ w',
    delete_department req w
    = (Ret (Response 200
              (Body true (Some "Department permissions reset to defaults")
                 (Some (DataDoc (Some x))) None None)), w')
    ∧ findOne_in d (coll w') = Some x
    ∧ calm n w'.
Proof.
  intros Hcalm d x.
  unfold delete_department, try_catch, bind, findOneAndUpdate. fold d.
  match goal with
  | |- context [driver ?c ?op ?w1] =>
      destruct (driver_through c op n w1 Hcalm) as [Hrun Hcalm'];
      rewrite Hrun; clear Hrun
  end.
  destruct (upsert_stored d
    [SetDepartment d; SetPermissions all_true; SetUpdatedBy (user_id req)] (coll w))
    as (y & Hy & Hstored & Hyeq); [done|].
  revert Hcalm'. rewrite Hy. cbn [fst snd]. intros Hcalm'.
  unfold console_log, res_json, ret. cbn [coll faults calls console].
  assert (y = x) as -> by (rewrite Hyeq; reflexivity).
  eexists; split; [reflexivity|]. by cbn [coll].
Qed.

(** C1. A read of a department that has no stored document answers (never
    with 404), leaves the collection as it was and issues only the
    [findOne]; when that call goes through, the answer is 200, a success,
    with a synthesized document of the department in which each of the
    five flags is [false]. *)
Theorem get_absent_department (req : request) (w : world) :
  findOne_in (params_department req) (coll w) = None →
  ∃ r w',
    get_department req w = (Ret r, w')
    ∧ coll w' = coll w
    ∧ calls w' = calls w ++ [CallFindOne (params_department req)]
    ∧ status r ≠ 404
    ∧ (calm 1 w →
       ∃ f,
         r = ok_doc (Doc (params_department req) (Some f) None)
         ∧ status r = 200
         ∧ success (json r) = true
         ∧ ∀ fl, read_flag fl f = JBool false).
Proof.
  intros Hnone.
  unfold get_department, try_catch, bind, findOne, driver.
  destruct (faults w) as [|[e|] fs] eqn:E; cbn [fst snd coll]; rewrite ?Hnone.
  - do 2 eexists. split; [reflexivity|]. repeat split; try done.
    intros _. exists all_false. repeat split; try done. by intros [].
  - do 2 eexists. split; [reflexivity|]. repeat split; try done.
    intros H. exfalso. apply (H 0 e); [lia | by rewrite E].
  - do 2 eexists. split; [reflexivity|]. repeat split; try done.
    intros _. exists all_false. repeat split; try done. by intros [].
Qed.

Lemma get_absent_department_witness :
  findOne_in "Engineering" [] = None
  ∧ ∃ r w',
      get_department (Request "Engineering" JUndefined "u1") (World [] [] [] [])
      = (Ret r, w')
      ∧ coll w' = []
      ∧ calls w' = [CallFindOne "Engineering"]
      ∧ status r ≠ 404
      ∧ (calm 1 (World [] [] [] []) →
         ∃ f,
           r = ok_doc (Doc "Engineering" (Some f) None)
           ∧ status r = 200
           ∧ success (json r) = true
           ∧ ∀ fl, read_flag fl f = JBool false).
Proof.
  split; [reflexivity|].
  apply (get_absent_department (Request "Engineering" JUndefined "u1")
           (World [] [] [] [])).
  reflexivity.
Defined.




(** C5. A reset whose call goes through leaves, whatever the collection
    held, a document of the department with the five flags [true] and the
    caller as [updatedBy]. *)
Theorem reset_all_true (req : request) (w : world) :
  calm 1 w →
  ∃ r w' f,
    delete_department req w = (Ret r, w')
    ∧ status r = 200
    ∧ findOne_in (params_department req) (coll w')
      = Some (Doc (params_department req) (Some f) (Some (user_id req)))
    ∧ data (json r)
      = Some (DataDoc (Some (Doc (params_department req) (Some f) (Some (user_id req)))))
    ∧ ∀ fl, read_flag fl f = JBool true.
Proof.
  intros Hcalm.
  destruct (delete_department_through req w 0 Hcalm) as (w' & Hrun & Hstored & _).
  exists (Response 200
            (Body true (Some "Department permissions reset to defaults")
               (Some (DataDoc (Some (Doc (params_department req) (Some all_true)
                                       (Some (user_id req)))))) None None)),
    w', all_true.
  repeat split; try done. by intros [].
Qed.

Lemma reset_all_true_witness :
  calm 1 (World [Doc "HR" (Some all_false) None] [] [] [])
  ∧ ∃ r w' f,
      delete_department (Request "HR" JUndefined "admin")
        (World [Doc "HR" (Some all_false) None] [] [] []) = (Ret r, w')
      ∧ status r = 200
      ∧ findOne_in "HR" (coll w') = Some (Doc "HR" (Some f) (Some "admin"))
      ∧ data (json r) = Some (DataDoc (Some (Doc "HR" (Some f) (Some "admin"))))
      ∧ ∀ fl, read_flag fl f = JBool true.
Proof.
  assert (calm 1 (World [Doc "HR" (Some all_false) None] [] [] [])) as Hc.
  { intros [|i] e _; discriminate. }
  split; [exact Hc|].
  apply (reset_all_true (Request "HR" JUndefined "admin") _ Hc).
Defined.

(** The read of all departments hands back the stored documents, sorted,
    and leaves the collection alone. *)
Lemma get_all_reads_only (req : request) (w : world) :
  calm 1 w →
  ∃ w',
    get_all req w
    = (Ret (Response 200
              (Body true None
                 (Some (DataList (merge_sort by_department (coll w)))) None None)),
       w')
    ∧ coll w' = coll w
    ∧ calls w' = calls w ++ [CallFind].
Proof.
  intros Hcalm.
  unfold get_all, try_catch, bind, find_sorted.
  destruct (driver_through CallFind (λ c, (merge_sort by_department c, c)) 0 w Hcalm)
    as [-> _].
  eexists; split; [reflexivity|]. done.
Qed.

(** C3, as the code has it.  A read of one department whose document has
    a sub-document hands back [false] for each of [myCalendar],
    [allEvents], [taggedDepartments] that is missing and the stored value
    otherwise, hands back [myRequirements] and [manageLocation] as stored,
    and leaves the document it handed back in the collection: the missing
    ones of the three fields were written, in one update, and the next
    read has nothing to write. *)
Theorem read_backfills_new_fields (req : request) (w : world) (x : doc) (f : flags) :
  findOne_in (params_department req) (coll w) = Some x →
  permissions x = Some f →
  calm 2 w →
  ∃ w' f',
    get_department req w
    = (Ret (ok_doc (Doc (department x) (Some f') (updatedBy x))), w')
    ∧ (∀ fl, fl ∈ backfilled →
         read_flag fl f'
         = if is_undefined (read_flag fl f) then JBool false else read_flag fl f)
    ∧ (∀ fl, fl ∈ original → read_flag fl f' = read_flag fl f)
    ∧ findOne_in (params_department req) (coll w')
      = Some (Doc (department x) (Some f') (updatedBy x))
    ∧ calls w'
      = calls w ++ CallFindOne (params_department req) ::
          match missing_paths f with
          | [] => []
          | upd => [CallFindOneAndUpdate (params_department req) upd
                      (Options false false false)]
          end
    ∧ writes f' = 0.
Proof.
  intros Hfind Hperm Hcalm.
  assert (calm (S (writes f + 0)) w) as Hcalm'.
  { eapply calm_le; [|exact Hcalm]. unfold writes.
    destruct (missing_paths f); simpl; lia. }
  destruct (get_department_present req w x f 0 Hfind Hperm Hcalm')
    as (w' & Hrun & Hstored & _ & _ & _ & Hcalls).
  exists w', (read_back f). split; [exact Hrun|].
  split; [|split; [|split; [exact Hstored|split; [exact Hcalls|]]]].
  - intros fl Hin. unfold backfilled in Hin.
    destruct f; repeat (apply elem_of_cons in Hin as [->|Hin]; [reflexivity|]).
    by apply elem_of_nil in Hin.
  - intros fl Hin. unfold original in Hin.
    destruct f; repeat (apply elem_of_cons in Hin as [->|Hin]; [reflexivity|]).
    by apply elem_of_nil in Hin.
  - unfold writes. by rewrite missing_paths_read_back.
Qed.

Lemma read_backfills_new_fields_witness :
  let x := Doc "HR" (Some (Flags (JBool true) (JBool true) JUndefined
                             (JBool true) JUndefined)) (Some "admin") in
  let w := World [x] [] [] [] in
  ∃ w' f',
    get_department (Request "HR" JUndefined "u1") w
    = (Ret (ok_doc (Doc "HR" (Some f') (Some "admin"))), w')
    ∧ read_flag MyCalendar f' = JBool false
    ∧ read_flag AllEvents f' = JBool true
    ∧ read_flag MyRequirements f' = JBool true
    ∧ findOne_in "HR" (coll w') = Some (Doc "HR" (Some f') (Some "admin"))
    ∧ calls w'
      = [CallFindOne "HR";
         CallFindOneAndUpdate "HR"
           [SetFlag MyCalendar (JBool false); SetFlag TaggedDepartments (JBool false)]
           (Options false false false)].
Proof.
  intros x w.
  assert (calm 2 w) as Hc by (intros [|i] e _; discriminate).
  destruct (read_backfills_new_fields (Request "HR" JUndefined "u1") w x
              (Flags (JBool true) (JBool true) JUndefined (JBool true) JUndefined)
              eq_refl eq_refl Hc)
    as (w' & f' & Hrun & Hnew & Hold & Hstored & Hcalls & _).
  exists w', f'. split; [exact Hrun|].
  split; [apply (Hnew MyCalendar); apply list_elem_of_In; simpl; tauto|].
  split; [apply (Hnew AllEvents); apply list_elem_of_In; simpl; tauto|].
  split; [apply (Hold MyRequirements); apply list_elem_of_In; simpl; tauto|].
  split; [exact Hstored|exact Hcalls].
Defined.

(** C3 as stated fails: a document that lacks [myRequirements] is handed
    back without it ([undefined], not [false]), and the read writes
    nothing to the collection. *)
Lemma read_leaves_myRequirements_missing :
  let x := Doc "HR" (Some (Flags JUndefined (JBool true) (JBool true)
                             (JBool true) (JBool true))) None in
  let w := World [x] [] [] [] in
  ∃ y w',
    get_department (Request "HR" JUndefined "u1") w = (Ret (ok_doc y), w')
    ∧ myRequirements <$> permissions y = Some JUndefined
    ∧ myRequirements <$> permissions y ≠ Some (JBool false)
    ∧ coll w' = coll w
    ∧ calls w' = [CallFindOne "HR"].
Proof.
  intros x w. exists x. eexists. split; [vm_compute; reflexivity|].
  repeat split; done.
Qed.

(** C4. A valid PUT followed by a GET of the same department, both going
    through: the GET hands back the document the PUT stored, with the
    three mandatory fields as sent and each optional field as sent when a
    boolean was sent, [false] when none was. *)
Theorem set_then_get (req : request) (w : world) :
  has_body req →
  let p := get_prop (req_body req) "permissions" in
  let d := params_department req in
  valid_payload p →
  calm 2 w →
  ∃ r1 w1 w2 f,
    put_department req w = (Ret r1, w1)
    ∧ status r1 = 200
    ∧ findOne_in d (coll w1) = Some (Doc d (Some f) (Some (user_id req)))
    ∧ get_department req w1 = (Ret (ok_doc (Doc d (Some f) (Some (user_id req)))), w2)
    ∧ (∀ fl, fl ∈ mandatory → read_flag fl f = get_prop p (field_name fl))
    ∧ (∀ fl, fl ∈ optional → defaulted (get_prop p (field_name fl)) (read_flag fl f)).
Proof.
  intros Hbody p d Hvalid Hcalm.
  destruct (put_department_valid req w 1 Hbody Hvalid Hcalm)
    as (w1 & Hput & Hstored & Hcalm1 & _).
  fold p d in Hput, Hstored.
  set (f := kept_flags
              (Flags (get_prop p "myRequirements") (get_prop p "manageLocation")
                 (get_prop p "myCalendar")
                 (js_or (get_prop p "allEvents") (JBool false))
                 (js_or (get_prop p "taggedDepartments") (JBool false)))) in *.
  assert (∀ v, is_undefined (kept (js_or v (JBool false))) = false) as Hopt.
  { intros v. pose proof (or_false_defined v) as Hv.
    by destruct (js_or v (JBool false)). }
  assert (missing_paths f = []) as Hmiss.
  { destruct (Hvalid MyCalendar) as [b3 H3]; [set_solver|]. simpl in H3.
    unfold missing_paths, f; simpl. fold p. rewrite H3, !Hopt. done. }
  assert (calm (S (writes f + 0)) w1) as Hcalm1'.
  { unfold writes. by rewrite Hmiss. }
  destruct (get_department_present req w1 _ f 0 Hstored eq_refl Hcalm1')
    as (w2 & Hget & _).
  simpl in Hget. rewrite (read_back_id f Hmiss) in Hget.
  eexists _, w1, w2, f. split; [exact Hput|]. split; [done|].
  split; [exact Hstored|]. split; [exact Hget|]. split.
  - intros fl Hin. destruct (Hvalid fl Hin) as [b Hb]. rewrite Hb.
    unfold mandatory in Hin.
    repeat (apply elem_of_cons in Hin as [->|Hin];
            [simpl in *; fold p; by rewrite Hb|]).
    by apply elem_of_nil in Hin.
  - intros fl Hin. unfold optional in Hin.
    assert (∀ v, defaulted v (kept (js_or v (JBool false)))) as Hdef.
    { intros v; split; [by intros -> | by intros [] ->]. }
    repeat (apply elem_of_cons in Hin as [->|Hin]; [apply Hdef|]).
    by apply elem_of_nil in Hin.
Qed.

Lemma set_then_get_witness :
  let req := Request "Engineering"
               (JObj [("permissions",
                       JObj [("myRequirements", JBool true);
                             ("manageLocation", JBool false);
                             ("myCalendar", JBool true)])]) "u1" in
  let w := World [] [] [] [] in
  ∃ r1 w1 w2 f,
    put_department req w = (Ret r1, w1)
    ∧ status r1 = 200
    ∧ findOne_in "Engineering" (coll w1)
      = Some (Doc "Engineering" (Some f) (Some "u1"))
    ∧ get_department req w1
      = (Ret (ok_doc (Doc "Engineering" (Some f) (Some "u1"))), w2)
    ∧ (∀ fl, fl ∈ mandatory →
         read_flag fl f
         = get_prop (get_prop (req_body req) "permissions") (field_name fl))
    ∧ (∀ fl, fl ∈ optional →
         defaulted (get_prop (get_prop (req_body req) "permissions") (field_name fl))
           (read_flag fl f)).
Proof.
  intros req w.
  apply (set_then_get req w).
  - split; discriminate.
  - intros fl Hin. unfold mandatory in Hin.
    apply elem_of_cons in Hin as [->|Hin]; [by exists true|].
    apply elem_of_cons in Hin as [->|Hin]; [by exists false|].
    apply elem_of_cons in Hin as [->|Hin]; [by exists true|].
    by apply elem_of_nil in Hin.
  - intros [|i] e _; discriminate.
Defined.

(** The example of the specification: the PUT of
    [{myRequirements:true, manageLocation:false, myCalendar:true}] for
    Engineering stores the document with [allEvents:false] and
    [taggedDepartments:false] added. *)
Example put_engineering :
  coll (put_department
          (Request "Engineering"
             (JObj [("permissions",
                     JObj [("myRequirements", JBool true);
                           ("manageLocation", JBool false);
                           ("myCalendar", JBool true)])]) "u1")
          (World [] [] [] [])).2
  = [Doc "Engineering"
       (Some (Flags (JBool true) (JBool false) (JBool true) (JBool false) (JBool false)))
       (Some "u1")].
Proof. reflexivity. Qed.





End PermissionsFacts.

(** ** Failures: the permission routes and the manual cleanup *)

Module FailureFacts.
Import JS Runtime Permissions Server RuntimeFacts.

Lemma driver_cases {A} (c : store_call) (op : list doc → A * list doc) w :
  (∃ e fs, faults w = Some e :: fs
           ∧ driver c op w = (Throw e, World (coll w) fs (calls w ++ [c]) (console w)))
  ∨ (calm 1 w
     ∧ driver c op w
       = (Ret (op (coll w)).1,
          World (op (coll w)).2 (tail (faults w)) (calls w ++ [c]) (console w))).
Proof.
  assert ((∃ e fs, faults w = Some e :: fs) ∨ calm 1 w) as [(e & fs & E) | Hc].
  { destruct (faults w) as [|[e|] fs] eqn:E.
    - right. by apply calm_nil.
    - left. eauto.
    - right. intros [|i] e Hi; [rewrite E; discriminate | lia]. }
  - left. exists e, fs. split; [done|]. by apply driver_rejected.
  - right. split; [done|]. by apply (driver_through c op 0 w).
Qed.

Lemma no_call_no_failure w w' e : failed_call w w' e → calls w' = calls w → False.
Proof. intros (i & Hi & _) Hcalls. rewrite Hcalls in Hi. lia. Qed.

(** One call was issued and rejected. *)
Lemma one_call_rejected w w' c e e0 fs :
  faults w = Some e0 :: fs → failed_call w w' e → calls w' = calls w ++ [c] → e = e0.
Proof.
  intros E (i & Hi & Hf) Hcalls. rewrite Hcalls, length_app in Hi. simpl in Hi.
  assert (i = 0) as -> by lia. rewrite E in Hf. by injection Hf.
Qed.

(** One call was issued and went through. *)
Lemma one_call_through w w' c e :
  calm 1 w → failed_call w w' e → calls w' = calls w ++ [c] → False.
Proof.
  intros Hc (i & Hi & Hf) Hcalls. rewrite Hcalls, length_app in Hi. simpl in Hi.
  apply (Hc i e); [lia | done].
Qed.

(** Two calls were issued, the first went through. *)
Lemma second_call_failed w w' c1 c2 e :
  calm 1 w → failed_call w w' e → calls w' = (calls w ++ [c1]) ++ [c2] →
  tail (faults w) !! 0 = Some (Some e).
Proof.
  intros Hc (i & Hi & Hf) Hcalls. rewrite Hcalls, !length_app in Hi. simpl in Hi.
  destruct i as [|[|i]]; [|by rewrite lookup_tail|lia].
  by destruct (Hc 0 e); [lia|].
Qed.

Lemma get_department_failure req w out w' e :
  get_department req w = (out, w') → failed_call w w' e →
  out = Ret (Response 500 (failure (failure_text GetDepartment)))
  ∧ console w' = console w ++ [LogError (error_tag GetDepartment) e].
Proof.
  unfold get_department, try_catch, bind, findOne.
  destruct (driver_cases (CallFindOne (params_department req))
              (λ c, (findOne_in (params_department req) c, c)) w)
    as [(e0 & fs & E & ->) | [Hc ->]].
  - intros [= <- <-] Hf. simpl.
    by rewrite (one_call_rejected _ _ _ _ _ _ E Hf eq_refl).
  - cbn [fst snd].
    destruct (findOne_in (params_department req) (coll w)) as [x|].
    + destruct (backfill TaggedDepartments
                  (backfill AllEvents (backfill MyCalendar (x, [], false))))
        as [[x' upd] [|]].
      * unfold findOneAndUpdate.
        match goal with
        | |- context [driver ?c ?op ?w1] =>
            destruct (driver_cases c op w1) as [(e0 & fs & E & ->) | [Hc1 ->]]
        end.
        -- intros [= <- <-] Hf. simpl in *.
           pose proof (second_call_failed _ _ _ _ _ Hc Hf eq_refl) as H2.
           rewrite E in H2. by injection H2 as ->.
        -- intros [= <- <-] Hf. exfalso.
           pose proof (second_call_failed _ _ _ _ _ Hc Hf eq_refl) as H2.
           by apply (Hc1 0 e); [lia|].
      * intros [= <- <-] Hf.
        by destruct (one_call_through _ _ _ e Hc Hf eq_refl).
    + intros [= <- <-] Hf.
      by destruct (one_call_through _ _ _ e Hc Hf eq_refl).
Qed.

Lemma get_all_failure req w out w' e :
  get_all req w = (out, w') → failed_call w w' e →
  out = Ret (Response 500 (failure (failure_text GetAll)))
  ∧ console w' = console w ++ [LogError (error_tag GetAll) e].
Proof.
  unfold get_all, try_catch, bind, find_sorted.
  destruct (driver_cases CallFind (λ c, (merge_sort by_department c, c)) w)
    as [(e0 & fs & E & ->) | [Hc ->]].
  - intros [= <- <-] Hf. simpl.
    by rewrite (one_call_rejected _ _ _ _ _ _ E Hf eq_refl).
  - intros [= <- <-] Hf.
    by destruct (one_call_through _ _ _ e Hc Hf eq_refl).
Qed.

Lemma delete_department_failure req w out w' e :
  delete_department req w = (out, w') → failed_call w w' e →
  out = Ret (Response 500 (failure (failure_text DeleteDepartment)))
  ∧ console w' = console w ++ [LogError (error_tag DeleteDepartment) e].
Proof.
  unfold delete_department, try_catch, bind, findOneAndUpdate.
  match goal with
  | |- context [driver ?c ?op ?w1] =>
      destruct (driver_cases c op w1) as [(e0 & fs & E & ->) | [Hc ->]]
  end.
  - intros [= <- <-] Hf. simpl.
    by rewrite (one_call_rejected _ _ _ _ _ _ E Hf eq_refl).
  - intros [= <- <-] Hf.
    by destruct (one_call_through _ _ _ e Hc Hf eq_refl).
Qed.

Lemma put_department_failure req w out w' e :
  put_department req w = (out, w') → failed_call w w' e →
  out = Ret (Response 500 (failure (failure_text PutDepartment)))
  ∧ console w' = console w ++ [LogError (error_tag PutDepartment) e].
Proof.
  unfold put_department, try_catch, bind.
  destruct (req_body req) eqn:Hbody; cbn [destructure throw ret];
    unfold console_error, res_status_json, ret;
    try (intros [= <- <-] Hf; by destruct (no_call_no_failure _ _ _ Hf eq_refl)).
  destruct (negb (truthy _) || negb (String.eqb (typeof _) "object"));
    [intros [= <- <-] Hf; by destruct (no_call_no_failure _ _ _ Hf eq_refl)|].
  destruct (negb (is_boolean _) || negb (is_boolean _) || negb (is_boolean _));
    [intros [= <- <-] Hf; by destruct (no_call_no_failure _ _ _ Hf eq_refl)|].
  all: unfold findOneAndUpdate;
       match goal with
       | |- context [driver ?c ?op ?w1] =>
           destruct (driver_cases c op w1) as [(e0 & fs & E & ->) | [Hc ->]]
       end;
       [ intros [= <- <-] Hf; simpl;
         by rewrite (one_call_rejected _ _ _ _ _ _ E Hf eq_refl)
       | intros [= <- <-] Hf;
         by destruct (one_call_through _ _ _ e Hc Hf eq_refl) ].
Qed.

(** C8, as the code has it.  When a call on the collection is rejected
    during one of the four permission routes, the route answers 500 with
    its fixed message and nothing of the error, which goes to the console.
    The cleanup route answers [{success, message, result}] when
    [runCleanupNow] returns, and when it throws answers 500 with
    [{success: false, message: 'Cleanup failed', error}], where [error] is
    the message of the thrown Error (['Unknown error'] for anything else),
    the error going to the console as well. *)
Theorem failures_answered :
  (∀ (rt : route) (req : request) (w w' : world) (out : outcome response)
     (e : thrown),
     router rt req w = (out, w') →
     failed_call w w' e →
     out = Ret (Response 500 (Body false (Some (failure_text rt)) None None None))
     ∧ console w' = console w ++ [LogError (error_tag rt) e])
  ∧ (∀ (runCleanupNow : M jsval) (w : world),
       let w0 := World (coll w) (faults w) (calls w)
                   (console w ++ [LogInfo "🧹 Manual cleanup triggered via API..." None]) in
       match runCleanupNow w0 with
       | (Ret result, w1) =>
           cleanup_now runCleanupNow w
           = (Ret (Response 200
                     (Body true (Some "Cleanup completed successfully") None
                        (Some result) None)), w1)
       | (Throw e, w1) =>
           cleanup_now runCleanupNow w
           = (Ret (Response 500
                     (Body false (Some "Cleanup failed") None None
                        (Some (error_text e)))),
              World (coll w1) (faults w1) (calls w1)
                (console w1 ++ [LogError "❌ Manual cleanup failed:" e]))
       end)
  ∧ (∀ m, error_text (ErrorObj m) = m)
  ∧ (∀ v, error_text (Raised v) = "Unknown error").
Proof.
  split; [|split; [|done]].
  - intros [] req w w' out e Hrun Hf.
    + by apply (get_department_failure req w).
    + by apply (get_all_failure req w).
    + by apply (put_department_failure req w).
    + by apply (delete_department_failure req w).
  - intros runCleanupNow w w0.
    unfold cleanup_now, try_catch, bind, console_log. fold w0.
    by destruct (runCleanupNow w0) as [[result|e] w1].
Qed.

Lemma failures_answered_witness :
  let x := Doc "HR" (Some (Flags (JBool true) (JBool true) JUndefined
                             (JBool true) (JBool true))) None in
  let w := World [x] [None; Some (ErrorObj "ECONNRESET")] [] [] in
  let req := Request "HR" JUndefined "u1" in
  failed_call w (get_department req w).2 (ErrorObj "ECONNRESET")
  ∧ (get_department req w).1
    = Ret (Response 500
             (Body false (Some "Failed to fetch department permissions")
                None None None))
  ∧ console (get_department req w).2
    = [LogError "Error fetching department permissions:" (ErrorObj "ECONNRESET")]
  ∧ (cleanup_now (throw (Raised JNull)) (World [] [] [] [])).1
    = Ret (Response 500
             (Body false (Some "Cleanup failed") None None (Some "Unknown error"))).
Proof.
  intros x w req.
  assert (failed_call w (get_department req w).2 (ErrorObj "ECONNRESET")) as Hf.
  { exists 1. split; [vm_compute; lia | reflexivity]. }
  destruct failures_answered as (Hroutes & Hcleanup & _).
  destruct (Hroutes GetDepartment req w (get_department req w).2
              (get_department req w).1 (ErrorObj "ECONNRESET")
              (surjective_pairing _) Hf) as [Hout Hlog].
  split; [exact Hf|]. split; [exact Hout|]. split; [exact Hlog|].
  pose proof (Hcleanup (throw (Raised JNull)) (World [] [] [] [])) as Hc.
  simpl in Hc. by rewrite Hc.
Defined.

(** C8 as stated fails on the cleanup route: when [runCleanupNow] throws
    an Error, its message is in the body of the 500 answer. *)
Lemma cleanup_failure_exposes_detail :
  ∃ r w',
    cleanup_now (throw (ErrorObj "pool destroyed")) (World [] [] [] []) = (Ret r, w')
    ∧ status r = 500
    ∧ error (json r) = Some "pool destroyed"
    ∧ error (json r) ≠ None.
Proof. do 2 eexists. split; [reflexivity|]. by repeat split. Qed.

End FailureFacts.

(** ** Properties of the server entry file *)

Module ServerFacts.
Import JS Runtime Server.

(** *** CORS *)

Lemma indexOf_found (o : string) (l : list string) : indexOf o l ≠ (-1)%Z ↔ o ∈ l.
Proof.
  induction l as [|y l IH]; simpl.
  - split; [done | by intros ?%elem_of_nil].
  - destruct (String.eqb_spec y o) as [->|Hne].
    + split; [intros _; by left | done].
    + rewrite elem_of_cons, <- IH.
      destruct (Z.eqb_spec (indexOf o l) (-1)) as [->|Hi].
      * split; [done | by intros [->|?]].
      * split; [by right|]. intros _.
        assert (-1 ≤ indexOf o l)%Z; [|lia].
        clear. induction l as [|z l IH]; simpl; [lia|].
        destruct (String.eqb z o); [lia|].
        destruct (Z.eqb_spec (indexOf o l) (-1)); lia.
Qed.

Lemma origin_function_accepts blocked allowed (o : string) :
  (origin_function blocked allowed (Some o)).1 = Accept ↔ o = "" ∨ o ∈ allowed.
Proof.
  unfold origin_function. simpl.
  destruct (String.eqb_spec o "") as [->|Hne]; simpl.
  - split; [by left | done].
  - destruct (Z.eqb_spec (indexOf o allowed) (-1)) as [Hi|Hi]; simpl.
    + split; [done|]. intros [?|Hin]; [done|]. by apply indexOf_found in Hin.
    + split; [|done]. intros _. right. by apply indexOf_found.
Qed.

(** C9. A request or handshake without Origin header is accepted whatever
    the list of allowed origins is (that of the environment included), by
    the HTTP check and by the Socket.IO check alike; the list only decides
    when an origin is given, and then a non-empty origin is accepted just
    when it is in the list. *)
Theorem no_origin_accepted :
  (∀ allowed : list string,
     socket_cors_origin allowed None = (Accept, [])
     ∧ http_cors_origin allowed None = (Accept, []))
  ∧ (∀ env : option string,
       (socket_cors_origin (allowedOrigins env) None).1 = Accept
       ∧ (http_cors_origin (allowedOrigins env) None).1 = Accept)
  ∧ (∀ (allowed : list string) (o : string),
       ((socket_cors_origin allowed (Some o)).1 = Accept ↔ o = "" ∨ o ∈ allowed)
       ∧ ((http_cors_origin allowed (Some o)).1 = Accept ↔ o = "" ∨ o ∈ allowed)).
Proof.
  split; [done|]. split; [done|].
  intros allowed o. split; apply origin_function_accepts.
Qed.

Example unlisted_origin_rejected :
  http_cors_origin (allowedOrigins None) (Some "http://example.org")
  = (Reject (ErrorObj "Not allowed by CORS"),
     [LogInfo "❌ CORS blocked origin:" (Some (JStr "http://example.org"))]).
Proof. reflexivity. Qed.

Example origins_from_environment :
  allowedOrigins (Some "https://a.example,https://b.example")
  = ["https://a.example"; "https://b.example"].
Proof. reflexivity. Qed.

(** *** The [Map] *)

Section MapFacts.
Context {V : Type}.
Implicit Types (m : Map V) (k : string) (v : V).

Lemma Map_get_None k m : Map_get k m = None ↔ k ∉ m.*1.
Proof.
  induction m as [|[k' v'] m IH]; csimpl.
  - split; [intros _; apply not_elem_of_nil | done].
  - rewrite not_elem_of_cons, <- IH.
    destruct (String.eqb_spec k' k) as [->|Hne].
    + split; [done | by intros [? _]].
    + split; [by intros ? | by intros [_ ?]].
Qed.

Lemma Map_get_Some k v m : Map_get k m = Some v → (k, v) ∈ m.
Proof.
  induction m as [|[k' v'] m IH]; csimpl; [done|].
  destruct (String.eqb_spec k' k) as [->|Hne].
  - intros [= ->]. by left.
  - intros H. right. by apply IH.
Qed.

Lemma Map_get_set k v m : Map_get k (Map_set k v m) = Some v.
Proof.
  induction m as [|[k' v'] m IH]; csimpl.
  - by rewrite String.eqb_refl.
  - destruct (String.eqb_spec k' k) as [->|Hne]; csimpl.
    + by rewrite String.eqb_refl.
    + by destruct (String.eqb_spec k' k).
Qed.

Lemma Map_set_keys k v m :
  (Map_set k v m).*1 = if Map_has k m then m.*1 else m.*1 ++ [k].
Proof.
  unfold Map_has. induction m as [|[k' v'] m IH]; csimpl; [done|].
  destruct (String.eqb_spec k' k) as [->|Hne]; csimpl; [done|].
  rewrite IH. by destruct (Map_get k m).
Qed.

Lemma Map_set_wf k v m : NoDup m.*1 → NoDup (Map_set k v m).*1.
Proof.
  intros Hwf. rewrite Map_set_keys. unfold Map_has.
  destruct (Map_get k m) eqn:E; [done|].
  apply NoDup_app. split; [done|]. split; [|apply NoDup_singleton].
  intros x Hx ->%list_elem_of_singleton. by apply Map_get_None in E.
Qed.

Lemma Map_delete_keys k m : (Map_delete k m).*1 = filter (λ k', k' ≠ k) m.*1.
Proof.
  induction m as [|[k' v'] m IH]; csimpl; [done|].
  destruct (String.eqb_spec k' k) as [->|Hne].
  - rewrite filter_cons_False by (simpl; tauto). done.
  - rewrite filter_cons_True by done. csimpl. by rewrite IH.
Qed.

Lemma Map_delete_wf k m : NoDup m.*1 → NoDup (Map_delete k m).*1.
Proof. intros Hwf. rewrite Map_delete_keys. by apply NoDup_filter. Qed.

Lemma Map_delete_absent k m : k ∉ m.*1 → Map_delete k m = m.
Proof.
  induction m as [|[k' v'] m IH]; csimpl; [done|].
  rewrite not_elem_of_cons. intros [Hne Hnot].
  destruct (String.eqb_spec k' k) as [->|_]; [done|]. by rewrite IH.
Qed.

Lemma no_entries_of_absent k m : k ∉ m.*1 → filter (λ e, e.1 = k) m = [].
Proof.
  induction m as [|[k' v'] m IH]; csimpl; [done|].
  rewrite not_elem_of_cons. intros [Hne Hnot].
  rewrite filter_cons_False by (simpl; congruence). by apply IH.
Qed.

(** In a map with one entry per key, the entries of a key are the one
    that [get] finds. *)
Lemma entries_of_key k v m :
  NoDup m.*1 → Map_get k m = Some v → filter (λ e, e.1 = k) m = [(k, v)].
Proof.
  induction m as [|[k' v'] m IH]; csimpl; [done|].
  intros Hwf%NoDup_cons. destruct Hwf as [Hnot Hwf].
  destruct (String.eqb_spec k' k) as [->|Hne].
  - intros [= ->]. rewrite filter_cons_True by done. f_equal.
    by apply no_entries_of_absent.
  - intros Hget. rewrite filter_cons_False by done. by apply IH.
Qed.

End MapFacts.

(** *** Presence *)

(** What a join does to the map: nothing when the user is already on this
    socket, [set] otherwise. *)
Lemma join_user_room_map socket_id userId p :
  connectedUsers (join_user_room socket_id userId p)
  = if bool_decide (Map_get userId (connectedUsers p) = Some socket_id)
    then connectedUsers p
    else Map_set userId socket_id (connectedUsers p).
Proof.
  unfold join_user_room, Map_has.
  destruct (Map_get userId (connectedUsers p)) as [old|] eqn:E.
  - case_bool_decide; simpl; done.
  - rewrite bool_decide_eq_false_2 by done. done.
Qed.

Lemma join_user_room_get socket_id userId p :
  Map_get userId (connectedUsers (join_user_room socket_id userId p)) = Some socket_id.
Proof.
  rewrite join_user_room_map. case_bool_decide; [done | apply Map_get_set].
Qed.

Lemma join_user_room_wf socket_id userId p :
  NoDup (connectedUsers p).*1 →
  NoDup (connectedUsers (join_user_room socket_id userId p)).*1.
Proof.
  intros Hwf. rewrite join_user_room_map.
  case_bool_decide; [done | by apply Map_set_wf].
Qed.

Lemma disconnect_map socket_id p :
  connectedUsers (disconnect socket_id p)
  = match first_user_of socket_id (connectedUsers p) with
    | Some userId => Map_delete userId (connectedUsers p)
    | None => connectedUsers p
    end.
Proof. unfold disconnect. by destruct (first_user_of _ _). Qed.

Lemma disconnect_wf socket_id p :
  NoDup (connectedUsers p).*1 → NoDup (connectedUsers (disconnect socket_id p)).*1.
Proof.
  intros Hwf. rewrite disconnect_map.
  destruct (first_user_of _ _); [by apply Map_delete_wf | done].
Qed.

(** The handlers keep one entry per user id, from the empty map on. *)
Lemma run_wf evs p :
  NoDup (connectedUsers p).*1 → NoDup (connectedUsers (run evs p)).*1.
Proof.
  revert p. induction evs as [|[socket_id e] evs IH]; intros p Hwf; [done|].
  apply IH. destruct e; cbn [handle];
    [done | done | by apply join_user_room_wf | done | done | by apply disconnect_wf].
Qed.

Lemma reachable_wf evs : NoDup (connectedUsers (run evs initial)).*1.
Proof. apply run_wf. apply NoDup_nil_2. Qed.

Lemma joins_wf userId sockets p :
  NoDup (connectedUsers p).*1 →
  NoDup (connectedUsers (foldl (λ q c, join_user_room c userId q) p sockets)).*1.
Proof.
  revert p. induction sockets as [|c sockets IH]; intros p Hwf; [done|].
  apply IH. by apply join_user_room_wf.
Qed.

(** The scan of the disconnect handler on a map with one entry per key. *)
Lemma first_user_of_split socket_id (m : Map string) :
  NoDup m.*1 →
  match first_user_of socket_id m with
  | None => ∀ e, e ∈ m → e.2 ≠ socket_id
  | Some userId =>
      ∃ before after,
        m = before ++ (userId, socket_id) :: after
        ∧ (∀ e, e ∈ before → e.2 ≠ socket_id)
        ∧ Map_delete userId m = before ++ after
  end.
Proof.
  induction m as [|[k s] m IH]; csimpl.
  - intros _ e Hin. by apply elem_of_nil in Hin.
  - intros Hwf%NoDup_cons. destruct Hwf as [Hnot Hwf].
    destruct (String.eqb_spec s socket_id) as [->|Hne].
    + exists [], m. split; [done|]. split.
      * intros e Hin. by apply elem_of_nil in Hin.
      * simpl. rewrite String.eqb_refl. by apply Map_delete_absent.
    + specialize (IH Hwf). destruct (first_user_of socket_id m) as [u|].
      * destruct IH as (before & after & Hm & Hbefore & Hdel).
        exists ((k, s) :: before), after. split; [by rewrite Hm|]. split.
        -- intros e [->|Hin]%elem_of_cons; [done | by apply Hbefore].
        -- simpl. destruct (String.eqb_spec k u) as [->|_].
           ++ exfalso. apply Hnot. rewrite Hm, fmap_app. csimpl.
              apply elem_of_app. right. by left.
           ++ by rewrite Hdel.
      * intros e [->|Hin]%elem_of_cons; [done | by apply IH].
Qed.

(** C6. After joins of one user id from a sequence of sockets, the map
    has exactly one entry for the user id, with the socket of the last
    join; a join from the socket the user id is already mapped to leaves
    the map as it is. *)
Theorem join_last_wins (p : presence) (userId : string) (earlier : list string)
    (latest : string) :
  NoDup (connectedUsers p).*1 →
  let p' := foldl (λ q c, join_user_room c userId q) p (earlier ++ [latest]) in
  filter (λ e, e.1 = userId) (connectedUsers p') = [(userId, latest)]
  ∧ Map_get userId (connectedUsers p') = Some latest
  ∧ connectedUsers (join_user_room latest userId p') = connectedUsers p'
  ∧ (∀ q c, Map_get userId (connectedUsers q) = Some c →
            connectedUsers (join_user_room c userId q) = connectedUsers q).
Proof.
  intros Hwf p'.
  assert (Map_get userId (connectedUsers p') = Some latest) as Hget.
  { unfold p'. rewrite foldl_app. simpl. apply join_user_room_get. }
  assert (∀ q c, Map_get userId (connectedUsers q) = Some c →
                 connectedUsers (join_user_room c userId q) = connectedUsers q) as Hsame.
  { intros q c Hq. rewrite join_user_room_map. by rewrite bool_decide_eq_true_2. }
  split; [|split; [done|split; [by apply Hsame|done]]].
  apply entries_of_key; [|done]. by apply joins_wf.
Qed.

Lemma join_last_wins_witness :
  let p := run [("s1", JoinUserRoom "bea"); ("s0", JoinUserRoom "ana")] initial in
  let p' := foldl (λ q c, join_user_room c "ana" q) p (["s2"; "s3"] ++ ["s4"]) in
  NoDup (connectedUsers p).*1
  ∧ filter (λ e, e.1 = "ana") (connectedUsers p') = [("ana", "s4")]
  ∧ Map_get "ana" (connectedUsers p') = Some "s4"
  ∧ connectedUsers (join_user_room "s4" "ana" p') = connectedUsers p'.
Proof.
  intros p p'.
  assert (NoDup (connectedUsers p).*1) as Hwf.
  { apply (bool_decide_unpack _). vm_compute. exact I. }
  split; [exact Hwf|].
  destruct (join_last_wins p "ana" ["s2"; "s3"] "s4" Hwf) as (H1 & H2 & H3 & _).
  split; [exact H1|]. split; [exact H2|exact H3].
Defined.

(** C7. A disconnect of a socket either finds no entry with that socket
    and leaves the map as it is, or removes the first entry with that
    socket and nothing else: the entries before it and all the entries
    after it, those with the same socket included, stay in place.  At most
    one entry goes. *)
Theorem disconnect_removes_first (p : presence) (socket_id : string) :
  NoDup (connectedUsers p).*1 →
  let m := connectedUsers p in
  let m' := connectedUsers (disconnect socket_id p) in
  (((∀ e, e ∈ m → e.2 ≠ socket_id) ∧ m' = m)
   ∨ (∃ before userId after,
        m = before ++ (userId, socket_id) :: after
        ∧ (∀ e, e ∈ before → e.2 ≠ socket_id)
        ∧ m' = before ++ after))
  ∧ length m ≤ S (length m').
Proof.
  intros Hwf m m'. subst m m'. rewrite disconnect_map.
  pose proof (first_user_of_split socket_id (connectedUsers p) Hwf) as Hscan.
  destruct (first_user_of socket_id (connectedUsers p)) as [u|].
  - destruct Hscan as (before & after & Hm & Hbefore & Hdel).
    split.
    + right. exists before, u, after. by rewrite Hdel.
    + rewrite Hdel, Hm, !length_app. simpl. lia.
  - split; [by left | lia].
Qed.

Lemma disconnect_removes_first_witness :
  let p := run [("s1", JoinUserRoom "ana"); ("s2", JoinUserRoom "bea");
                ("s2", JoinUserRoom "cy"); ("s2", JoinUserRoom "dee")] initial in
  NoDup (connectedUsers p).*1
  ∧ connectedUsers p = [("ana", "s1"); ("bea", "s2"); ("cy", "s2"); ("dee", "s2")]
  ∧ connectedUsers (disconnect "s2" p) = [("ana", "s1"); ("cy", "s2"); ("dee", "s2")]
  ∧ length (connectedUsers p) ≤ S (length (connectedUsers (disconnect "s2" p))).
Proof.
  intros p.
  assert (NoDup (connectedUsers p).*1) as Hwf.
  { apply (bool_decide_unpack _). vm_compute. exact I. }
  split; [exact Hwf|]. split; [reflexivity|]. split; [reflexivity|].
  exact (proj2 (disconnect_removes_first p "s2" Hwf)).
Defined.

End ServerFacts.

(** ** The router as a whole: what every request does to the collection *)

Module RouterFacts.
Import JS Runtime Permissions RuntimeFacts PermissionsFacts FailureFacts.

Lemma apply_update_flags_department upd x :
  (∀ a, a ∈ upd → ∃ fl v, a = SetFlag fl v) →
  department (apply_update upd x) = department x.
Proof.
  unfold apply_update. revert x.
  induction upd as [|a upd IH]; intros x Hall; [done|]. simpl.
  rewrite IH.
  - destruct (Hall a) as (fl & v & ->); [by left | done].
  - intros b Hb. apply Hall. by right.
Qed.

Lemma backfill_paths fl x upd b :
  (∀ a, a ∈ upd → ∃ fl' v, a = SetFlag fl' v) →
  ∀ a, a ∈ (backfill fl (x, upd, b)).1.2 → ∃ fl' v, a = SetFlag fl' v.
Proof.
  intros Hall a. unfold backfill.
  destruct (permissions x) as [f|]; [|by apply Hall].
  destruct (is_undefined (read_flag fl f)); [|by apply Hall]. simpl.
  intros [Hin| ->%list_elem_of_singleton]%elem_of_app; [by apply Hall | eauto].
Qed.

Lemma findOneAndUpdate_in_touched d upd o c :
  (∀ x, department x = d → department (apply_update upd x) = d) →
  touched (opt_upsert o) d c (findOneAndUpdate_in d upd o c).2.
Proof.
  intros Hkeep. unfold findOneAndUpdate_in.
  destruct (findOne_in d c) as [old|] eqn:Hfind; simpl.
  - by apply touched_changed.
  - destruct (opt_upsert o) eqn:Hup; simpl; [|apply touched_not].
    apply touched_added; [done | done | by apply Hkeep].
Qed.

Lemma touched_weaken d c c' : touched false d c c' → touched true d c c'.
Proof.
  intros [|f Hf|x Hup]; [apply touched_not | by apply touched_changed | done].
Qed.

(** Every route answers, with 200, 400 or 500, and leaves the collection
    touched for its department only. *)
Lemma router_outcome rt req w :
  ∃ r w',
    router rt req w = (Ret r, w')
    ∧ (status r = 200 ∨ (status r = 400 ∧ rt = PutDepartment) ∨ status r = 500)
    ∧ touched (is_write rt) (params_department req) (coll w) (coll w').
Proof.
  destruct rt; simpl.
  - unfold get_department, try_catch, bind, findOne.
    destruct (driver_cases (CallFindOne (params_department req))
                (λ c, (findOne_in (params_department req) c, c)) w)
      as [(e0 & fs & E & ->) | [Hc ->]].
    { do 2 eexists. split; [reflexivity|]. split; [by right; right|]. apply touched_not. }
    cbn [fst snd].
    destruct (findOne_in (params_department req) (coll w)) as [x|] eqn:Hfind.
    2:{ do 2 eexists. split; [reflexivity|]. split; [by left|]. apply touched_not. }
    pose proof (backfill_paths TaggedDepartments
                  (backfill AllEvents (backfill MyCalendar (x, [], false))).1.1
                  (backfill AllEvents (backfill MyCalendar (x, [], false))).1.2
                  (backfill AllEvents (backfill MyCalendar (x, [], false))).2) as Hpaths.
    rewrite <- !surjective_pairing in Hpaths.
    destruct (backfill TaggedDepartments
                (backfill AllEvents (backfill MyCalendar (x, [], false))))
      as [[x' upd] [|]].
    2:{ do 2 eexists. split; [reflexivity|]. split; [by left|]. apply touched_not. }
    assert (∀ a, a ∈ upd → ∃ fl' v, a = SetFlag fl' v) as Hupd.
    { apply Hpaths. intros a Ha.
      pose proof (backfill_paths AllEvents
                    (backfill MyCalendar (x, [], false)).1.1
                    (backfill MyCalendar (x, [], false)).1.2
                    (backfill MyCalendar (x, [], false)).2) as Hp2.
      rewrite <- !surjective_pairing in Hp2. apply Hp2; [|done].
      intros a' Ha'.
      apply (backfill_paths MyCalendar x [] false); [|done].
      by intros ? ?%elem_of_nil. }
    unfold findOneAndUpdate.
    match goal with
    | |- context [driver ?c ?op ?w1] =>
        destruct (driver_cases c op w1) as [(e0 & fs & E & ->) | [Hc1 ->]]
    end.
    { do 2 eexists. split; [reflexivity|]. split; [by right; right|]. apply touched_not. }
    do 2 eexists. split; [reflexivity|]. split; [by left|].
    cbn [coll fst snd].
    apply (findOneAndUpdate_in_touched _ _ (Options false false false)).
    intros y Hy. by rewrite apply_update_flags_department.
  - unfold get_all, try_catch, bind, find_sorted.
    destruct (driver_cases CallFind (λ c, (merge_sort by_department c, c)) w)
      as [(e0 & fs & E & ->) | [Hc ->]].
    + do 2 eexists. split; [reflexivity|]. split; [by right; right|]. apply touched_not.
    + do 2 eexists. split; [reflexivity|]. split; [by left|]. apply touched_not.
  - unfold put_department, try_catch, bind.
    destruct (req_body req) eqn:Hbody; cbn [destructure throw ret];
      unfold console_error, res_status_json, ret;
      try (do 2 eexists; split; [reflexivity|]; split;
           [first [by right; right | by right; left] | apply touched_not]).
    destruct (negb (truthy _) || negb (String.eqb (typeof _) "object")).
    { do 2 eexists. split; [reflexivity|]. split; [right; left; done | apply touched_not]. }
    destruct (negb (is_boolean _) || negb (is_boolean _) || negb (is_boolean _)).
    { do 2 eexists. split; [reflexivity|]. split; [right; left; done | apply touched_not]. }
    unfold findOneAndUpdate.
    match goal with
    | |- context [driver ?c ?op ?w1] =>
        destruct (driver_cases c op w1) as [(e0 & fs & E & ->) | [Hc ->]]
    end.
    + do 2 eexists. split; [reflexivity|]. split; [by right; right|]. apply touched_not.
    + do 2 eexists. split; [reflexivity|]. split; [by left|].
      cbn [coll fst snd console_log].
      by apply (findOneAndUpdate_in_touched _ _ (Options true true true)).
  - unfold delete_department, try_catch, bind, findOneAndUpdate.
    match goal with
    | |- context [driver ?c ?op ?w1] =>
        destruct (driver_cases c op w1) as [(e0 & fs & E & ->) | [Hc ->]]
    end.
    + do 2 eexists. split; [reflexivity|]. split; [by right; right|]. apply touched_not.
    + do 2 eexists. split; [reflexivity|]. split; [by left|].
      cbn [coll fst snd console_log].
      by apply (findOneAndUpdate_in_touched _ _ (Options true true true)).
Qed.

Lemma modify_first_departments d f c :
  (∀ x, department x = d → department (f x) = d) →
  department <$> modify_first d f c = department <$> c.
Proof.
  intros Hf. induction c as [|y c IH]; csimpl; [done|].
  destruct (matches d y) eqn:Hy; csimpl.
  - apply matches_eq in Hy. by rewrite (Hf y Hy), Hy.
  - by rewrite IH.
Qed.

Lemma findOne_in_None d c : findOne_in d c = None ↔ d ∉ department <$> c.
Proof.
  unfold findOne_in. induction c as [|y c IH]; csimpl.
  - split; [intros _; apply not_elem_of_nil | done].
  - rewrite not_elem_of_cons, <- IH. destruct (matches d y) eqn:Hy.
    + apply matches_eq in Hy. split; [done | by intros [? _]].
    + split; [|by intros [_ ?]]. intros Hnone. split; [|done].
      intros ->. by rewrite (proj2 (matches_eq _ _) eq_refl) in Hy.
Qed.

Lemma touched_departments up d c c' :
  touched up d c c' →
  department <$> c' = department <$> c
  ∨ (up = true ∧ findOne_in d c = None
     ∧ department <$> c' = (department <$> c) ++ [d]).
Proof.
  intros [|f Hf|x Hup Hnone Hx].
  - by left.
  - left. by apply modify_first_departments.
  - right. rewrite fmap_app. csimpl. by rewrite Hx.
Qed.

Lemma touched_others up d c c' :
  touched up d c c' →
  filter (λ x, department x ≠ d) c' = filter (λ x, department x ≠ d) c.
Proof.
  intros [|f Hf|x Hup Hnone Hx].
  - done.
  - induction c as [|y c IH]; csimpl; [done|].
    destruct (matches d y) eqn:Hy.
    + apply matches_eq in Hy.
      rewrite !filter_cons_False; [done | by intros [] | intros []; by apply Hf].
    + rewrite !filter_cons, IH. done.
  - rewrite filter_app, filter_cons_False by (by intros []).
    by rewrite filter_nil, app_nil_r.
Qed.

(** X1. Every request to the router is answered: no route lets an error
    escape, whatever the driver does, and the status is 200, 400 or 500,
    400 coming from the PUT route only. *)
Theorem router_always_answers (rt : route) (req : request) (w : world) :
  ∃ r w',
    router rt req w = (Ret r, w')
    ∧ status r ∈ [200; 400; 500]
    ∧ (rt ≠ PutDepartment → status r ≠ 400).
Proof.
  destruct (router_outcome rt req w) as (r & w' & Hrun & Hstatus & _).
  exists r, w'. split; [done|]. split.
  - destruct Hstatus as [->|[[-> _]| ->]]; set_solver.
  - intros Hrt Hst. destruct Hstatus as [H|[[_ H]|H]]; [|done|]; by rewrite H in Hst.
Qed.

Lemma router_always_answers_witness :
  let req := Request "HR" JUndefined "u1" in
  let w := World [] [Some (ErrorObj "socket closed")] [] [] in
  GetDepartment ≠ PutDepartment
  ∧ ∃ r w',
      router GetDepartment req w = (Ret r, w')
      ∧ status r ∈ [200; 400; 500]
      ∧ status r ≠ 400.
Proof.
  intros req w.
  assert (GetDepartment ≠ PutDepartment) as Hne by discriminate.
  split; [exact Hne|].
  destruct (router_always_answers GetDepartment req w) as (r & w' & Hrun & Hst & Hnot).
  exists r, w'. split; [exact Hrun|]. split; [exact Hst | exact (Hnot Hne)].
Defined.

(** X2. One document per department: if no two documents of the
    collection have the same department, that is still so after any
    request to the router. *)
Theorem one_document_per_department (rt : route) (req : request) (w : world) :
  NoDup (department <$> coll w) →
  NoDup (department <$> coll (router rt req w).2).
Proof.
  intros Hwf.
  destruct (router_outcome rt req w) as (r & w' & Hrun & _ & Htouched).
  rewrite Hrun. simpl.
  destruct (touched_departments _ _ _ _ Htouched) as [->|(_ & Hnone & ->)]; [done|].
  apply NoDup_app. split; [done|]. split; [|apply NoDup_singleton].
  intros d Hd ->%list_elem_of_singleton. by apply findOne_in_None in Hnone.
Qed.

Lemma one_document_per_department_witness :
  let w := World [Doc "HR" (Some all_false) None; Doc "IT" None None] [] [] [] in
  let req := Request "Engineering" JUndefined "admin" in
  NoDup (department <$> coll w)
  ∧ NoDup (department <$> coll (router DeleteDepartment req w).2)
  ∧ department <$> coll (router DeleteDepartment req w).2 = ["HR"; "IT"; "Engineering"].
Proof.
  intros w req.
  assert (NoDup (department <$> coll w)) as Hwf.
  { apply (bool_decide_unpack _). vm_compute. exact I. }
  split; [exact Hwf|].
  split; [exact (one_document_per_department DeleteDepartment req w Hwf) | reflexivity].
Defined.

(** X3. A request to the router leaves the documents of every other
    department as they were, in their order. *)
Theorem other_departments_untouched (rt : route) (req : request) (w : world) :
  filter (λ x, department x ≠ params_department req) (coll (router rt req w).2)
  = filter (λ x, department x ≠ params_department req) (coll w).
Proof.
  destruct (router_outcome rt req w) as (r & w' & Hrun & _ & Htouched).
  rewrite Hrun. simpl. by apply (touched_others _ _ _ _ Htouched).
Qed.

(** X4. No request removes a document or moves one to another
    department: the departments of the collection stay as they were, in
    their order, except that a PUT or a DELETE for a department without
    document may add that department at the end.  The two GET routes
    never add one. *)
Theorem documents_never_removed (rt : route) (req : request) (w : world) :
  let before := department <$> coll w in
  let after := department <$> coll (router rt req w).2 in
  after = before
  ∨ (is_write rt = true
     ∧ findOne_in (params_department req) (coll w) = None
     ∧ after = before ++ [params_department req]).
Proof.
  intros before after. subst before after.
  destruct (router_outcome rt req w) as (r & w' & Hrun & _ & Htouched).
  rewrite Hrun. simpl. by apply (touched_departments _ _ _ _ Htouched).
Qed.


End RouterFacts.

(** ** More on the permission routes: edges and compositions *)

Module PermissionsMore.
Import JS Runtime Permissions RuntimeFacts PermissionsFacts.

(** X5. A stored document without [permissions] sub-document is handed
    back by the GET of its department as it is, nothing being defaulted,
    and nothing is written. *)
Theorem get_without_subdocument (req : request) (w : world) (x : doc) :
  findOne_in (params_department req) (coll w) = Some x →
  permissions x = None →
  calm 1 w →
  ∃ w',
    get_department req w = (Ret (ok_doc x), w')
    ∧ coll w' = coll w
    ∧ calls w' = calls w ++ [CallFindOne (params_department req)].
Proof.
  intros Hfind Hperm Hcalm.
  destruct (driver_through (CallFindOne (params_department req))
              (λ c, (findOne_in (params_department req) c, c)) 0 w Hcalm)
    as [Hrun _].
  unfold get_department, try_catch, bind, findOne. rewrite Hrun.
  cbn [fst snd]. rewrite Hfind.
  destruct x as [dx px ux]. simpl in Hperm. subst px.
  eexists. split; [reflexivity|]. done.
Qed.

Lemma get_without_subdocument_witness :
  let x := Doc "HR" None (Some "admin") in
  let w := World [x] [] [] [] in
  ∃ w',
    get_department (Request "HR" JUndefined "u1") w = (Ret (ok_doc x), w')
    ∧ coll w' = [x]
    ∧ calls w' = [CallFindOne "HR"].
Proof.
  intros x w.
  apply (get_without_subdocument (Request "HR" JUndefined "u1") w x);
    [reflexivity | reflexivity | intros [|i] e _; discriminate].
Defined.

(** X6. The two rejections of the PUT route: a [permissions] that is
    falsy or whose [typeof] is not ['object'] is answered 'Invalid
    permissions data'; one that passes this test (an object or an array)
    without three mandatory booleans is answered 'Permission values must
    be boolean'.  Neither touches anything. *)
Theorem put_rejection_messages (req : request) (w : world) :
  has_body req →
  let p := get_prop (req_body req) "permissions" in
  ((truthy p = false ∨ typeof p ≠ "object") →
   put_department req w
   = (Ret (Response 400 (failure "Invalid permissions data")), w))
  ∧ (truthy p = true → typeof p = "object" → ¬ valid_payload p →
     put_department req w
     = (Ret (Response 400 (failure "Permission values must be boolean")), w)).
Proof.
  intros [Hb1 Hb2] p.
  unfold put_department, try_catch, bind.
  rewrite (destructure_ok _ _ _ Hb1 Hb2). fold p. split.
  - intros Hbad.
    assert (negb (truthy p) || negb (String.eqb (typeof p) "object") = true) as ->;
      [|done].
    destruct Hbad as [-> | Hty]; [done|].
    apply orb_true_iff. right. apply negb_true_iff.
    by destruct (String.eqb_spec (typeof p) "object").
  - intros Htruthy Hty Hinvalid. rewrite Htruthy, Hty. simpl.
    destruct (is_boolean (get_prop p "myRequirements")) eqn:E1; [|done].
    destruct (is_boolean (get_prop p "manageLocation")) eqn:E2; [|done].
    destruct (is_boolean (get_prop p "myCalendar")) eqn:E3; [|done].
    exfalso. apply Hinvalid. intros fl Hin. unfold mandatory in Hin.
    apply elem_of_cons in Hin as [->|Hin]; [by apply is_boolean_spec|].
    apply elem_of_cons in Hin as [->|Hin]; [by apply is_boolean_spec|].
    apply elem_of_cons in Hin as [->|Hin]; [by apply is_boolean_spec|].
    by apply elem_of_nil in Hin.
Qed.

Lemma put_rejection_messages_witness :
  let w := World [] [] [] [] in
  put_department (Request "HR" (JObj [("permissions", JStr "all")]) "u1") w
  = (Ret (Response 400 (failure "Invalid permissions data")), w)
  ∧ put_department
      (Request "HR" (JObj [("permissions", JArr [JBool true; JBool true; JBool true])])
         "u1") w
    = (Ret (Response 400 (failure "Permission values must be boolean")), w).
Proof.
  intros w. split.
  - apply (put_rejection_messages
             (Request "HR" (JObj [("permissions", JStr "all")]) "u1") w).
    + split; discriminate.
    + right. discriminate.
  - apply (put_rejection_messages
             (Request "HR"
                (JObj [("permissions", JArr [JBool true; JBool true; JBool true])])
                "u1") w).
    + split; discriminate.
    + reflexivity.
    + reflexivity.
    + intros Hv. destruct (Hv MyRequirements) as [b Hb]; [by left | discriminate].
Defined.

(** X7. A PUT whose request has no body ([req.body] undefined or null)
    is not answered 400: taking [permissions] from it throws, which the
    route answers with its 500, after logging the error; no call is made
    on the collection. *)
Theorem put_without_body (req : request) (w : world) :
  req_body req = JUndefined ∨ req_body req = JNull →
  ∃ e,
    put_department req w
    = (Ret (Response 500 (failure "Failed to update department permissions")),
       World (coll w) (faults w) (calls w)
         (console w ++ [LogError "Error updating department permissions:" e])).
Proof.
  intros Hbody. unfold put_department, try_catch, bind.
  destruct Hbody as [-> | ->]; eexists; reflexivity.
Qed.

Lemma put_without_body_witness :
  ∃ e,
    put_department (Request "HR" JUndefined "u1") (World [] [] [] [])
    = (Ret (Response 500 (failure "Failed to update department permissions")),
       World [] [] []
         [LogError "Error updating department permissions:" e]).
Proof.
  apply (put_without_body (Request "HR" JUndefined "u1") (World [] [] [] [])).
  left. reflexivity.
Defined.

(** X8. In a valid PUT, an optional field that is sent with a falsy value
    (null, 0, the empty string, false) or not sent at all is stored as
    the boolean [false]. *)
Theorem put_falsy_optional_false (req : request) (w : world) (fl : flag) :
  has_body req →
  let p := get_prop (req_body req) "permissions" in
  let d := params_department req in
  valid_payload p →
  fl ∈ optional →
  truthy (get_prop p (field_name fl)) = false →
  calm 1 w →
  ∃ r w' f,
    put_department req w = (Ret r, w')
    ∧ status r = 200
    ∧ findOne_in d (coll w') = Some (Doc d (Some f) (Some (user_id req)))
    ∧ read_flag fl f = JBool false.
Proof.
  intros Hbody p d Hvalid Hin Hfalsy Hcalm.
  destruct (put_department_valid req w 0 Hbody Hvalid Hcalm)
    as (w' & Hput & Hstored & _).
  fold p d in Hput, Hstored.
  eexists _, w', _. split; [exact Hput|]. split; [done|]. split; [exact Hstored|].
  unfold optional in Hin.
  apply elem_of_cons in Hin as [->|Hin].
  { simpl in *. unfold js_or. by rewrite Hfalsy. }
  apply elem_of_cons in Hin as [->|Hin].
  { simpl in *. unfold js_or. by rewrite Hfalsy. }
  by apply elem_of_nil in Hin.
Qed.

Lemma put_falsy_optional_false_witness :
  let req := Request "HR"
               (JObj [("permissions",
                       JObj [("myRequirements", JBool true);
                             ("manageLocation", JBool true);
                             ("myCalendar", JBool false);
                             ("taggedDepartments", JNull)])]) "u1" in
  ∃ r w' f,
    put_department req (World [] [] [] []) = (Ret r, w')
    ∧ status r = 200
    ∧ findOne_in "HR" (coll w') = Some (Doc "HR" (Some f) (Some "u1"))
    ∧ read_flag TaggedDepartments f = JBool false.
Proof.
  intros req.
  apply (put_falsy_optional_false req (World [] [] [] []) TaggedDepartments).
  - split; discriminate.
  - intros fl Hin. unfold mandatory in Hin.
    apply elem_of_cons in Hin as [->|Hin]; [by exists true|].
    apply elem_of_cons in Hin as [->|Hin]; [by exists true|].
    apply elem_of_cons in Hin as [->|Hin]; [by exists false|].
    by apply elem_of_nil in Hin.
  - apply list_elem_of_In. simpl. tauto.
  - reflexivity.
  - intros [|i] e _; discriminate.
Defined.

(** X9. Reading a department twice: the second GET hands back the same
    document as the first, issues the [findOne] only and leaves the
    collection as the first left it. *)
Theorem second_read_writes_nothing (req : request) (w : world) (x : doc) (f : flags) :
  findOne_in (params_department req) (coll w) = Some x →
  permissions x = Some f →
  calm 3 w →
  ∃ r w1 w2,
    get_department req w = (Ret r, w1)
    ∧ get_department req w1 = (Ret r, w2)
    ∧ status r = 200
    ∧ coll w2 = coll w1
    ∧ calls w2 = calls w1 ++ [CallFindOne (params_department req)].
Proof.
  intros Hfind Hperm Hcalm.
  assert (calm (S (writes f + 1)) w) as Hcalm'.
  { eapply calm_le; [|exact Hcalm]. unfold writes.
    destruct (missing_paths f); simpl; lia. }
  destruct (get_department_present req w x f 1 Hfind Hperm Hcalm')
    as (w1 & Hrun1 & Hstored & Hcalm1 & _).
  simpl in Hrun1, Hstored.
  assert (calm (S (writes (read_back f) + 0)) w1) as Hcalm1'.
  { unfold writes. by rewrite missing_paths_read_back. }
  destruct (get_department_present req w1 _ (read_back f) 0 Hstored eq_refl Hcalm1')
    as (w2 & Hrun2 & _ & _ & _ & Hcoll & Hcalls).
  simpl in Hrun2. rewrite missing_paths_read_back in Hcoll, Hcalls.
  rewrite (read_back_id (read_back f) (missing_paths_read_back f)) in Hrun2.
  eexists _, w1, w2. split; [exact Hrun1|]. split; [exact Hrun2|]. done.
Qed.

Lemma second_read_writes_nothing_witness :
  let x := Doc "HR" (Some (Flags (JBool true) (JBool true) JUndefined
                             JUndefined JUndefined)) None in
  let w := World [x] [] [] [] in
  let req := Request "HR" JUndefined "u1" in
  ∃ r w1 w2,
    get_department req w = (Ret r, w1)
    ∧ get_department req w1 = (Ret r, w2)
    ∧ status r = 200
    ∧ coll w2 = coll w1
    ∧ calls w2 = calls w1 ++ [CallFindOne "HR"].
Proof.
  intros x w req.
  apply (second_read_writes_nothing req w x
           (Flags (JBool true) (JBool true) JUndefined JUndefined JUndefined));
    [reflexivity | reflexivity | intros [|i] e _; discriminate].
Defined.

(** X10. A reset followed by a GET of the same department: the GET hands
    back the document with the five flags [true] and the caller of the
    reset as [updatedBy], and has nothing to write. *)
Theorem reset_then_get (req req' : request) (w : world) :
  params_department req' = params_department req →
  calm 2 w →
  ∃ r1 w1 w2,
    delete_department req w = (Ret r1, w1)
    ∧ get_department req' w1
      = (Ret (ok_doc (Doc (params_department req) (Some all_true) (Some (user_id req)))),
         w2)
    ∧ coll w2 = coll w1
    ∧ calls w2 = calls w1 ++ [CallFindOne (params_department req)].
Proof.
  intros Hsame Hcalm.
  destruct (delete_department_through req w 1 Hcalm) as (w1 & Hrun1 & Hstored & Hcalm1).
  rewrite <- Hsame in Hstored.
  destruct (get_department_present req' w1 _ all_true 0 Hstored eq_refl Hcalm1)
    as (w2 & Hrun2 & _ & _ & _ & Hcoll & Hcalls).
  simpl in Hrun2, Hcoll, Hcalls. rewrite Hsame in Hcalls, Hrun2.
  change (read_back all_true) with all_true in Hrun2.
  eexists _, w1, w2. split; [exact Hrun1|]. split; [exact Hrun2|]. done.
Qed.

Lemma reset_then_get_witness :
  let w := World [Doc "HR" (Some all_false) None] [] [] [] in
  ∃ r1 w1 w2,
    delete_department (Request "HR" JUndefined "admin") w = (Ret r1, w1)
    ∧ get_department (Request "HR" JUndefined "u1") w1
      = (Ret (ok_doc (Doc "HR" (Some all_true) (Some "admin"))), w2)
    ∧ coll w2 = coll w1
    ∧ calls w2 = calls w1 ++ [CallFindOne "HR"].
Proof.
  intros w.
  apply (reset_then_get (Request "HR" JUndefined "admin")
           (Request "HR" JUndefined "u1") w);
    [reflexivity | intros [|i] e _; discriminate].
Defined.

End PermissionsMore.

(** ** More on the server entry file *)

Module ServerMore.
Import JS Runtime Server ServerFacts.

(** *** Allowed origins *)

Lemma split_comma_cons s : ∃ piece pieces, split_comma s = piece :: pieces.
Proof.
  induction s as [|c s (piece & pieces & IH)]; simpl; [eauto|].
  destruct (Ascii.eqb c ","); [eauto|]. rewrite IH. eauto.
Qed.

Lemma concat_cons sep piece piece' pieces :
  String.concat sep (piece :: piece' :: pieces)
  = piece +:+ sep +:+ String.concat sep (piece' :: pieces).
Proof. reflexivity. Qed.

Lemma split_comma_concat s : String.concat "," (split_comma s) = s.
Proof.
  induction s as [|c s IH]; [done|]. simpl.
  destruct (split_comma_cons s) as (piece & pieces & Hs). rewrite Hs in *.
  destruct (Ascii.eqb_spec c ",") as [->|Hne].
  - rewrite concat_cons, IH. done.
  - destruct pieces as [|piece' pieces].
    + simpl in *. by rewrite IH.
    + transitivity (String c (String.concat "," (piece :: piece' :: pieces)));
        [reflexivity | by rewrite IH].
Qed.

Lemma split_comma_pieces s piece :
  piece ∈ split_comma s → ","%char ∉ String.list_ascii_of_string piece.
Proof.
  revert piece. induction s as [|c s IH]; simpl; intros piece.
  - intros ->%list_elem_of_singleton. apply not_elem_of_nil.
  - destruct (split_comma_cons s) as (p0 & ps & Hs). rewrite Hs in *.
    destruct (Ascii.eqb_spec c ",") as [->|Hne].
    + intros [->|Hin]%elem_of_cons; [apply not_elem_of_nil | by apply IH].
    + intros [->|Hin]%elem_of_cons.
      * simpl. apply not_elem_of_cons. split; [done|]. apply IH. by left.
      * apply IH. by right.
Qed.

(** X12. A non-empty [CORS_ORIGINS] is cut at its commas and at nothing
    else: the allowed origins, joined again with commas, are the value of
    the variable (nothing is trimmed, dropped or added, and the default
    origins are not among them unless the variable lists them), and no
    allowed origin contains a comma. *)
Theorem origins_verbatim (s : string) :
  s ≠ "" →
  String.concat "," (allowedOrigins (Some s)) = s
  ∧ ∀ o, o ∈ allowedOrigins (Some s) → ","%char ∉ String.list_ascii_of_string o.
Proof.
  intros Hs. unfold allowedOrigins. simpl.
  destruct (String.eqb_spec s "") as [->|_]; [done|]. simpl.
  split; [apply split_comma_concat | apply split_comma_pieces].
Qed.

Lemma origins_verbatim_witness :
  "https://a.example, https://b.example" ≠ ""
  ∧ String.concat ","
      (allowedOrigins (Some "https://a.example, https://b.example"))
    = "https://a.example, https://b.example"
  ∧ allowedOrigins (Some "https://a.example, https://b.example")
    = ["https://a.example"; " https://b.example"].
Proof.
  split; [discriminate|].
  split; [|reflexivity].
  apply (origins_verbatim "https://a.example, https://b.example"). discriminate.
Defined.

(** *** Presence *)

Lemma elem_of_Map_set {V} k (v : V) m e :
  e ∈ Map_set k v m → e ∈ m ∨ e = (k, v).
Proof.
  induction m as [|[k' v'] m IH]; simpl.
  - intros ->%list_elem_of_singleton. by right.
  - destruct (String.eqb k' k).
    + intros [->|Hin]%elem_of_cons; [by right | left; by right].
    + intros [->|Hin]%elem_of_cons; [left; by left|].
      destruct (IH Hin) as [?|?]; [left; by right | by right].
Qed.

Lemma elem_of_Map_delete {V} k m (e : string * V) : e ∈ Map_delete k m → e ∈ m.
Proof.
  induction m as [|[k' v'] m IH]; simpl; [done|].
  destruct (String.eqb k' k).
  - intros Hin. right. by apply IH.
  - intros [->|Hin]%elem_of_cons; [by left | right; by apply IH].
Qed.

Lemma handle_provenance p socket_id ev u s :
  (u, s) ∈ connectedUsers (handle p (socket_id, ev)) →
  (u, s) ∈ connectedUsers p ∨ (socket_id, ev) = (s, JoinUserRoom u).
Proof.
  destruct ev; cbn [handle]; try (by left).
  - rewrite join_user_room_map. case_bool_decide; [by left|].
    intros [Hin|[= -> ->]]%elem_of_Map_set; [by left | by right].
  - rewrite disconnect_map. destruct (first_user_of _ _); [|by left].
    intros Hin%elem_of_Map_delete. by left.
Qed.

Lemma run_provenance evs p u s :
  (u, s) ∈ connectedUsers (run evs p) →
  (u, s) ∈ connectedUsers p ∨ (s, JoinUserRoom u) ∈ evs.
Proof.
  revert p. induction evs as [|[socket_id ev] evs IH]; intros p; [by left|].
  intros Hin. destruct (IH _ Hin) as [Hp|Hev]; [|right; by right].
  destruct (handle_provenance _ _ _ _ _ Hp) as [?|[= -> ->]]; [by left|].
  right. by left.
Qed.

(** X13. Whatever events the sockets send, from the start of the server
    on: the presence map has at most one entry per user id, and every
    entry pairs a user id with a socket that sent [join-user-room] for
    that user id. *)
Theorem presence_invariant (evs : list (string * event)) :
  let m := connectedUsers (run evs initial) in
  NoDup m.*1 ∧ ∀ u s, (u, s) ∈ m → (s, JoinUserRoom u) ∈ evs.
Proof.
  split; [apply reachable_wf|].
  intros u s Hin. destruct (run_provenance _ _ _ _ Hin) as [Hinit|?]; [|done].
  by apply elem_of_nil in Hinit.
Qed.

Lemma presence_invariant_witness :
  let evs := [("s1", JoinUserRoom "ana"); ("s1", JoinConversation "c7");
              ("s2", JoinUserRoom "ana"); ("s1", Disconnect)] in
  ("ana", "s2") ∈ connectedUsers (run evs initial)
  ∧ NoDup (connectedUsers (run evs initial)).*1
  ∧ ("s2", JoinUserRoom "ana") ∈ evs.
Proof.
  intros evs.
  assert (("ana", "s2") ∈ connectedUsers (run evs initial)) as Hin.
  { apply list_elem_of_In. simpl. tauto. }
  destruct (presence_invariant evs) as [Hwf Hfrom].
  split; [exact Hin|]. split; [exact Hwf | exact (Hfrom "ana" "s2" Hin)].
Defined.

Lemma Map_set_absent {V} k (v : V) m :
  Map_get k m = None → Map_set k v m = m ++ [(k, v)].
Proof.
  induction m as [|[k' v'] m IH]; simpl; [done|].
  destruct (String.eqb k' k); [done|]. intros H. by rewrite IH.
Qed.

Lemma Map_delete_last {V} k (v : V) m :
  Map_get k m = None → Map_delete k (m ++ [(k, v)]) = m.
Proof.
  induction m as [|[k' v'] m IH]; simpl.
  - by rewrite String.eqb_refl.
  - destruct (String.eqb k' k); [done|]. intros H. by rewrite IH.
Qed.

Lemma first_user_of_last socket_id u (m : Map string) :
  (∀ e, e ∈ m → e.2 ≠ socket_id) →
  first_user_of socket_id (m ++ [(u, socket_id)]) = Some u.
Proof.
  induction m as [|[k s] m IH]; simpl; intros Hno.
  - by rewrite String.eqb_refl.
  - destruct (String.eqb_spec s socket_id) as [->|_].
    + by destruct (Hno (k, socket_id)); [left|].
    + apply IH. intros e He. apply Hno. by right.
Qed.

(** X14. A socket that registers a user id not yet in the map, and that
    has no entry of its own yet, and then disconnects, leaves the map as
    it was before it came. *)
Theorem join_then_disconnect (p : presence) (socket_id userId : string) :
  Map_get userId (connectedUsers p) = None →
  (∀ e, e ∈ connectedUsers p → e.2 ≠ socket_id) →
  connectedUsers (disconnect socket_id (join_user_room socket_id userId p))
  = connectedUsers p.
Proof.
  intros Hnew Hno.
  rewrite disconnect_map, join_user_room_map.
  rewrite bool_decide_eq_false_2 by (by rewrite Hnew).
  rewrite (Map_set_absent _ _ _ Hnew), (first_user_of_last _ _ _ Hno).
  by apply Map_delete_last.
Qed.

Lemma join_then_disconnect_witness :
  let p := run [("s1", JoinUserRoom "ana"); ("s2", JoinUserRoom "bea")] initial in
  connectedUsers (disconnect "s3" (join_user_room "s3" "cy" p)) = connectedUsers p
  ∧ connectedUsers p = [("ana", "s1"); ("bea", "s2")].
Proof.
  intros p. split; [|reflexivity].
  apply (join_then_disconnect p "s3" "cy"); [reflexivity|].
  intros e He. change (connectedUsers p) with [("ana", "s1"); ("bea", "s2")] in He.
  apply elem_of_cons in He as [->|He]; [discriminate|].
  apply elem_of_cons in He as [->|He]; [discriminate|].
  by apply elem_of_nil in He.
Defined.

Lemma Map_get_elem {V} k (v : V) m : NoDup m.*1 → (k, v) ∈ m → Map_get k m = Some v.
Proof.
  induction m as [|[k' v'] m IH]; csimpl; [by intros _ ?%elem_of_nil|].
  intros Hwf%NoDup_cons. destruct Hwf as [Hnot Hwf].
  intros [[= -> ->]|Hin]%elem_of_cons.
  - by rewrite String.eqb_refl.
  - destruct (String.eqb_spec k' k) as [->|_]; [|by apply IH].
    destruct Hnot. apply list_elem_of_fmap. by exists (k, v).
Qed.

Lemma Map_get_delete_ne {V} k k' (m : Map V) :
  k ≠ k' → Map_get k (Map_delete k' m) = Map_get k m.
Proof.
  intros Hne. induction m as [|[k0 v0] m IH]; simpl; [done|].
  destruct (String.eqb_spec k0 k') as [->|Hne'].
  - rewrite IH. by destruct (String.eqb_spec k' k) as [->|_].
  - simpl. by rewrite IH.
Qed.

Lemma Map_get_set_ne {V} k k' (v : V) m :
  k ≠ k' → Map_get k (Map_set k' v m) = Map_get k m.
Proof.
  intros Hne. induction m as [|[k0 v0] m IH]; simpl.
  - by destruct (String.eqb_spec k' k) as [->|_].
  - destruct (String.eqb_spec k0 k') as [->|Hne']; simpl.
    + by destruct (String.eqb_spec k' k) as [->|_].
    + by rewrite IH.
Qed.

Lemma no_socket_entries socket_id (m : Map string) :
  (∀ e, e ∈ m → e.2 ≠ socket_id) → filter (λ e, e.2 = socket_id) m = [].
Proof.
  induction m as [|e m IH]; intros Hno; [done|].
  rewrite filter_cons_False by (apply Hno; by left).
  apply IH. intros e' He'. apply Hno. by right.
Qed.

(** X15. A disconnect takes exactly one of the entries of its socket out
    of the map when there is one: a socket that had registered several
    user ids leaves all but one of those entries behind. *)
Theorem disconnect_one_of_many (p : presence) (socket_id : string) :
  NoDup (connectedUsers p).*1 →
  length (filter (λ e, e.2 = socket_id) (connectedUsers (disconnect socket_id p)))
  = pred (length (filter (λ e, e.2 = socket_id) (connectedUsers p))).
Proof.
  intros Hwf. rewrite disconnect_map.
  pose proof (first_user_of_split socket_id (connectedUsers p) Hwf) as Hscan.
  destruct (first_user_of socket_id (connectedUsers p)) as [u|].
  - destruct Hscan as (before & after & Hm & Hbefore & ->).
    rewrite Hm, !filter_app, filter_cons_True by done.
    rewrite !length_app. simpl.
    by rewrite (no_socket_entries _ _ Hbefore).
  - by rewrite (no_socket_entries _ _ Hscan).
Qed.

Lemma disconnect_one_of_many_witness :
  let p := run [("s2", JoinUserRoom "bea"); ("s2", JoinUserRoom "cy");
                ("s2", JoinUserRoom "dee")] initial in
  length (filter (λ e, e.2 = "s2") (connectedUsers (disconnect "s2" p))) = 2
  ∧ Map_get "cy" (connectedUsers (disconnect "s2" p)) = Some "s2".
Proof.
  intros p. split; [|reflexivity].
  assert (NoDup (connectedUsers p).*1) as Hwf.
  { apply (bool_decide_unpack _). vm_compute. exact I. }
  exact (disconnect_one_of_many p "s2" Hwf).
Defined.

(** X16. A user id is not lost to the disconnect of another socket: when
    the user id is mapped to a socket, the disconnect of any other socket
    leaves that mapping.  So after a reconnect on a new socket, the late
    disconnect of the old one does not unregister the user. *)
Theorem disconnect_of_other_socket (p : presence) (userId s socket_id : string) :
  NoDup (connectedUsers p).*1 →
  Map_get userId (connectedUsers p) = Some s →
  s ≠ socket_id →
  Map_get userId (connectedUsers (disconnect socket_id p)) = Some s.
Proof.
  intros Hwf Hget Hne. rewrite disconnect_map.
  pose proof (first_user_of_split socket_id (connectedUsers p) Hwf) as Hscan.
  destruct (first_user_of socket_id (connectedUsers p)) as [u|]; [|done].
  destruct Hscan as (before & after & Hm & _ & _).
  rewrite Map_get_delete_ne; [done|].
  intros ->. assert (Map_get u (connectedUsers p) = Some socket_id) as Hu.
  { apply Map_get_elem; [done|]. rewrite Hm. apply elem_of_app. right. by left. }
  congruence.
Qed.

Lemma disconnect_of_other_socket_witness :
  let p := run [("s1", JoinUserRoom "ana"); ("s2", JoinUserRoom "ana")] initial in
  Map_get "ana" (connectedUsers p) = Some "s2"
  ∧ Map_get "ana" (connectedUsers (disconnect "s1" p)) = Some "s2".
Proof.
  intros p. split; [reflexivity|].
  apply (disconnect_of_other_socket p "ana" "s2" "s1");
    [|reflexivity|discriminate].
  apply (bool_decide_unpack _). vm_compute. exact I.
Defined.

(** X17. A join touches the entry of its user id only: every other user
    id stays mapped as it was, and the user ids of the map stay in their
    order, the joining one going last when it is new. *)
Theorem join_leaves_others (p : presence) (socket_id userId : string) :
  let m := connectedUsers p in
  let m' := connectedUsers (join_user_room socket_id userId p) in
  (∀ other, other ≠ userId → Map_get other m' = Map_get other m)
  ∧ m'.*1 = (if Map_has userId m then m.*1 else m.*1 ++ [userId]).
Proof.
  intros m m'. subst m m'. rewrite join_user_room_map. split.
  - intros other Hne. case_bool_decide; [done | by apply Map_get_set_ne].
  - case_bool_decide as Hget.
    + unfold Map_has. by rewrite Hget.
    + apply Map_set_keys.
Qed.

Lemma join_leaves_others_witness :
  let p := run [("s1", JoinUserRoom "ana"); ("s2", JoinUserRoom "bea")] initial in
  "bea" ≠ "ana"
  ∧ Map_get "bea" (connectedUsers (join_user_room "s3" "ana" p)) = Some "s2"
  ∧ (connectedUsers (join_user_room "s3" "ana" p)).*1 = ["ana"; "bea"].
Proof.
  intros p.
  assert ("bea" ≠ "ana") as Hne by discriminate.
  destruct (join_leaves_others p "s3" "ana") as [Hothers Hkeys].
  split; [exact Hne|]. split; [exact (Hothers "bea" Hne) | exact Hkeys].
Defined.

(** X18. Rooms.  A join of a user id puts the socket in the room of that
    user id.  A socket that joins a conversation and leaves it again is
    out of its room, all other memberships being as before the join; and
    leaving a conversation takes no socket out of the room of a user
    id. *)
Theorem conversation_rooms (p : presence) (socket_id : string) :
  (∀ userId,
     (socket_id, "user-" +:+ userId) ∈ rooms (join_user_room socket_id userId p))
  ∧ (∀ c,
       rooms (leave_conversation socket_id c (join_conversation socket_id c p))
       = rooms p ∖ {[ (socket_id, "conversation-" +:+ c) ]})
  ∧ (∀ c s userId,
       (s, "user-" +:+ userId) ∈ rooms p →
       (s, "user-" +:+ userId) ∈ rooms (leave_conversation socket_id c p)).
Proof.
  split; [|split].
  - intros userId. unfold join_user_room.
    cbn [say socket_join rooms]. set_solver.
  - intros c. unfold leave_conversation, join_conversation.
    cbn [say socket_join socket_leave rooms]. set_solver.
  - intros c s userId Hin. unfold leave_conversation.
    cbn [say socket_leave rooms].
    apply elem_of_difference. split; [done|].
    apply not_elem_of_singleton. intros [_ H]%pair_equal_spec. discriminate H.
Qed.

Lemma conversation_rooms_witness :
  let p := join_user_room "s1" "ana" initial in
  ("s1", "user-ana") ∈ rooms p
  ∧ ("s1", "user-ana") ∈ rooms (leave_conversation "s1" "ana" p).
Proof.
  intros p.
  destruct (conversation_rooms initial "s1") as (Hjoin & _ & _).
  destruct (conversation_rooms p "s1") as (_ & _ & Hkeep).
  split; [exact (Hjoin "ana") | exact (Hkeep "ana" "s1" "ana" (Hjoin "ana"))].
Defined.


(** *** Startup *)

Ltac not_among :=
  let H := fresh in
  intros H;
  repeat (apply elem_of_cons in H as [H|H]; [discriminate H|]);
  by apply elem_of_nil in H.

Ltac among := apply list_elem_of_In; simpl; tauto.

Lemma callback_only_logs env : filter (λ a, is_step a = true) (listening_callback env) = [].
Proof.
  unfold listening_callback.
  induction [_; _; _; _; _; _; _; _; _; _; _] as [|text l IH]; [done|].
  csimpl. by rewrite filter_cons_False.
Qed.

Lemma callback_no_error env text e : Say (LogError text e) ∉ listening_callback env.
Proof.
  unfold listening_callback.
  induction [_; _; _; _; _; _; _; _; _; _; _] as [|t l IH]; csimpl.
  - apply not_elem_of_nil.
  - apply not_elem_of_cons. split; [discriminate | done].
Qed.

(** The lines of [connectDB] up to the start of the scheduler. *)
Lemma startup_unfold env :
  main env
  = match env_MONGODB_URI env with
    | None =>
        ([Say (LogError "❌ MongoDB connection failed:"
                 (ErrorObj "MONGODB_URI is not defined in environment variables"))],
         ProcessExit 1)
    | Some uri =>
        if String.eqb uri "" then
          ([Say (LogError "❌ MongoDB connection failed:"
                   (ErrorObj "MONGODB_URI is not defined in environment variables"))],
           ProcessExit 1)
        else
          match connect_rejects env with
          | Some e =>
              ([Say (LogInfo "🔄 Connecting to MongoDB Atlas..." None);
                MongooseConnect uri;
                Say (LogError "❌ MongoDB connection failed:" e)],
               ProcessExit 1)
          | None =>
              let connected :=
                [Say (LogInfo "🔄 Connecting to MongoDB Atlas..." None);
                 MongooseConnect uri;
                 Say (LogInfo "✅ MongoDB Atlas connected successfully!" None);
                 Say (LogInfo ("📊 Database: "
                               +:+ default "undefined" (databaseName env)) None);
                 Say (LogInfo ("🌐 Host: "
                               +:+ default "undefined" (connection_host env)) None);
                 StartScheduler] in
              match scheduler_throws env with
              | Some e =>
                  (connected ++ [Say (LogError "❌ MongoDB connection failed:" e)],
                   ProcessExit 1)
              | None =>
                  match listen_answers env with
                  | Listens =>
                      ((connected ++ [Listen (PORT env)]) ++ listening_callback env,
                       Serving)
                  | ListenThrows e =>
                      (connected ++ [Listen (PORT env);
                                     Say (LogError "❌ Failed to start server:" e)],
                       ProcessExit 1)
                  | ListenErrorEvent e =>
                      (connected ++ [Listen (PORT env)], Uncaught e)
                  end
              end
          end
    end
  ∧ ∀ e, (startServer env).2 ≠ Threw e.
Proof.
  destruct env as [uri port cr db host st la].
  unfold main, startServer, connectDB.
  cbn [env_MONGODB_URI connect_rejects databaseName connection_host
       scheduler_throws listen_answers env_value truthy].
  destruct uri as [uri|]; [|split; [reflexivity | discriminate]].
  change (truthy (env_value (Some uri))) with (negb (String.eqb uri "")).
  destruct (String.eqb uri ""); [split; [reflexivity | discriminate]|].
  destruct cr as [ec|]; [split; [reflexivity | discriminate]|].
  destruct st as [es|]; [split; [reflexivity | discriminate]|].
  destruct la as [|el|el]; split; first [reflexivity | discriminate].
Qed.

Ltac startup_cases env :=
  let Hmain := fresh "Hmain" in
  let Hnothrow := fresh "Hnothrow" in
  destruct (startup_unfold env) as [Hmain Hnothrow];
  unfold ready, steps_reached; rewrite !Hmain; clear Hmain;
  destruct (env_MONGODB_URI env) as [uri|];
  [destruct (String.eqb_spec uri "") as [->|Hne]|];
  [ | destruct (connect_rejects env) as [ec|];
      [|destruct (scheduler_throws env) as [es|];
        [|destruct (listen_answers env) as [|el|el]]] | ];
  cbn [fst snd default].

(** X19. What becomes of the process at its start.  It serves exactly
    when the URI is set and not empty, [mongoose.connect] resolves,
    [startScheduler] returns and the server listens; the calls made are
    then these three, once each and in that order.  It exits, with code 1
    and no other, exactly when the URI is missing or empty, the connection
    or the scheduler fails, or [listen] throws at the call.  When [listen]
    fails by an ['error'] event, for which the file has no handler,
    [startServer] has returned and the error is left uncaught.
    [startServer] itself never throws. *)
Theorem startup_fate (env : environment) :
  let outcome := (main env).2 in
  (outcome = Serving ↔ ready env ∧ listen_answers env = Listens)
  ∧ (outcome = Serving →
     filter (λ a, is_step a = true) (main env).1
     = [MongooseConnect (default "" (env_MONGODB_URI env)); StartScheduler;
        Listen (PORT env)])
  ∧ (∀ e, outcome = Uncaught e ↔ ready env ∧ listen_answers env = ListenErrorEvent e)
  ∧ (∀ code, outcome = ProcessExit code ↔
       code = 1%Z ∧ (¬ ready env ∨ ∃ e, listen_answers env = ListenThrows e))
  ∧ (∀ e, (startServer env).2 ≠ Threw e).
Proof.
  intros outcome. subst outcome. startup_cases env.
  all: split; [split; [intros H; try discriminate H |
                       intros [((u & Hu & Hu') & Hc & Hs) Hl];
                       try discriminate; try congruence] |].
  all: try (by repeat split; try eexists).
  all: split; [intros H; try discriminate H|].
  all: try (rewrite filter_app, callback_only_logs, app_nil_r; reflexivity).
  all: split; [intros e; split;
               [intros H; try discriminate H |
                intros [((u & Hu & Hu') & Hc & Hs) Hl];
                try discriminate; try congruence] |].
  all: try (injection H as <-; by repeat split; try eexists).
  all: split; [|exact Hnothrow].
  all: intros code; split.
  all: try (intros H; discriminate H).
  all: try (intros [= <-]; split; [done|]).
  all: try (left; intros ((u & Hu & Hu') & Hc & Hs); discriminate || congruence).
  all: try (right; by eexists).
  all: try (intros [-> _]; reflexivity).
  all: try (intros [_ [Hnot|[e He]]]; [|discriminate He];
            exfalso; apply Hnot; by repeat split; try eexists).
Qed.

Lemma startup_fate_witness :
  let env := Environment (Some "mongodb://db.example/pgb") None None
               (Some "pgb") (Some "db.example") None
               (ListenErrorEvent (ErrorObj "EADDRINUSE")) in
  ready env
  ∧ (main env).2 = Uncaught (ErrorObj "EADDRINUSE")
  ∧ (main env).2 ≠ Serving
  ∧ (startServer env).2 = Returned.
Proof.
  intros env.
  assert (ready env) as Hready.
  { split; [|done]. eexists. split; [reflexivity | discriminate]. }
  destruct (startup_fate env) as (_ & _ & Huncaught & _ & _).
  assert ((main env).2 = Uncaught (ErrorObj "EADDRINUSE")) as Hfate.
  { apply Huncaught. by split. }
  split; [exact Hready|]. split; [exact Hfate|].
  split; [rewrite Hfate; discriminate | reflexivity].
Defined.

Ltac split_member H :=
  repeat match type of H with
         | _ ∈ _ ++ _ => apply elem_of_app in H as [H|H]
         | _ ∈ _ :: _ => apply elem_of_cons in H as [H|H]
         | _ ∈ [] => by apply elem_of_nil in H
         | _ ∈ listening_callback _ => by destruct (callback_no_error _ _ _ H)
         end.

(** X20. What the startup calls and logs.  The calls made are
    [mongoose.connect], then [startScheduler], then [listen], each once
    and only as far as the one before succeeded; without a URI (unset or
    empty) none is made.  A missing URI, a rejected connection and a
    scheduler that throws are each logged as a failed MongoDB connection,
    with the error; 'Failed to start server' is logged exactly when
    [listen] throws at the call; when the failure of [listen] arrives as
    an ['error'] event, no error is logged at all. *)
Theorem startup_steps (env : environment) :
  let acts := (main env).1 in
  filter (λ a, is_step a = true) acts = steps_reached env
  ∧ ((env_MONGODB_URI env = None ∨ env_MONGODB_URI env = Some "") →
     Say (LogError "❌ MongoDB connection failed:"
            (ErrorObj "MONGODB_URI is not defined in environment variables")) ∈ acts)
  ∧ (∀ uri e, env_MONGODB_URI env = Some uri → uri ≠ "" →
       connect_rejects env = Some e →
       Say (LogError "❌ MongoDB connection failed:" e) ∈ acts)
  ∧ (∀ uri e, env_MONGODB_URI env = Some uri → uri ≠ "" →
       connect_rejects env = None → scheduler_throws env = Some e →
       Say (LogError "❌ MongoDB connection failed:" e) ∈ acts)
  ∧ (∀ e, Say (LogError "❌ Failed to start server:" e) ∈ acts ↔
          ready env ∧ listen_answers env = ListenThrows e)
  ∧ (∀ e, ready env → listen_answers env = ListenErrorEvent e →
          ∀ text e', Say (LogError text e') ∉ acts).
Proof.
  intros acts. subst acts. startup_cases env.
  all: split;
    [ first [ rewrite filter_app, callback_only_logs, app_nil_r;
              cbn [app]; rewrite !filter_cons; simpl;
              first [ by rewrite (proj2 (String.eqb_neq _ _) Hne) | reflexivity ]
            | cbn [app]; rewrite ?filter_cons; simpl;
              first [ by rewrite (proj2 (String.eqb_neq _ _) Hne) | reflexivity ] ] |].
  all: split; [intros [H|H]; first [discriminate H | injection H as ->; done | among] |].
  all: split; [intros u e Hu Hu' Hc; first [discriminate | congruence | among
                 | injection Hc as <-; among] |].
  all: split; [intros u e Hu Hu' Hc Hs; first [discriminate | congruence | among
                 | injection Hs as <-; among] |].
  all: split.
  all: try (intros e; split;
            [ intros H; split_member H;
              first [ discriminate H
                    | injection H as ->; split; [split; [by eexists | done] | done] ]
            | intros [((u & Hu & Hu') & Hc & Hs) Hl];
              first [discriminate | congruence | injection Hl as ->; among] ]).
  all: intros e ((u & Hu & Hu') & Hc & Hs) Hl;
    first [discriminate | congruence
          | intros text e' H; split_member H; discriminate H].
Qed.

Lemma startup_steps_witness :
  let env := Environment (Some "mongodb://db.example/pgb") (Some "8080") None
               None None (Some (ErrorObj "cron")) Listens in
  filter (λ a, is_step a = true) (main env).1
  = [MongooseConnect "mongodb://db.example/pgb"; StartScheduler]
  ∧ Say (LogError "❌ MongoDB connection failed:" (ErrorObj "cron")) ∈ (main env).1
  ∧ (main env).2 = ProcessExit 1.
Proof.
  intros env.
  destruct (startup_steps env) as (Hsteps & _ & _ & Hscheduler & _).
  split; [exact Hsteps|].
  split; [|reflexivity].
  apply (Hscheduler "mongodb://db.example/pgb" (ErrorObj "cron"));
    [reflexivity | discriminate | reflexivity | reflexivity].
Defined.

End ServerMore.
